(** * effect-http-bridge: the Result algebra, its builder and the client's
      runtime cache

    A shallow embedding of [src/Result.ts] (the [Result] type, its
    combinators, the fluent [Builder] and the serialization [Schema]) and of
    the [getRuntime] closure of [src/HttpBridge.ts].

    Conventions of the embedding.
    - JavaScript callbacks (handlers, lazy fallbacks, mapping functions) may
      have side effects and may throw.  They are embedded in the monad [Eff],
      which threads an arbitrary state and an abrupt completion.
    - [Date.now()] is an explicit argument [now]: the instant the clock would
      report if it were read.
    - The [effect] library ([Cause], [Option], [Exit], [Equal], [Schema]) is
      not part of the repository.  Its data and the few functions the sources
      call are modelled in the modules [Cause], [Option] and [Exit], or taken
      as parameters ([Equal], the codecs of [Schema]). *)

From Stdlib Require Import ZArith Lia.
From stdpp Require Import base option list strings gmap pretty.

Open Scope Z_scope.

(** ** Effects of callbacks *)

(** How the evaluation of a JavaScript expression ends: with a value, or
    with a thrown value. *)
Inductive Completion (X A : Type) : Type :=
| Normal (a : A)
| Throw (x : X).
Arguments Normal {X A} a.
Arguments Throw {X A} x.

(** A computation over a state [S] that may throw a value of type [X]. *)
Definition Eff (S X A : Type) : Type := S -> Completion X A * S.

Section EffMonad.
Context {S X : Type}.

Definition eff_ret {A} (a : A) : Eff S X A := fun s => (Normal a, s).

Definition eff_throw {A} (x : X) : Eff S X A := fun s => (Throw x, s).

Definition eff_bind {A B} (k : A -> Eff S X B) (m : Eff S X A) : Eff S X B :=
  fun s =>
    match m s with
    | (Normal a, s') => k a s'
    | (Throw x, s') => (Throw x, s')
    end.

Definition eff_map {A B} (g : A -> B) (m : Eff S X A) : Eff S X B :=
  eff_bind (fun a => eff_ret (g a)) m.
End EffMonad.

#[global] Instance Eff_ret {S X} : MRet (Eff S X) := @eff_ret S X.
#[global] Instance Eff_bind {S X} : MBind (Eff S X) := @eff_bind S X.
#[global] Instance Eff_fmap {S X} : FMap (Eff S X) := @eff_map S X.

(** [LazyArg<A>] of [effect/Function]: a thunk. *)
Definition LazyArg (S X A : Type) : Type := unit -> Eff S X A.

(** A type that holds JavaScript's [null].  The union [A | null] of the
    source is then [A] itself: a [null] that a callback returns and the
    [null] that stands for "nothing" are one value. *)
Class Null (A : Type) : Type := null : A.

(** Modelled from the spec: [Equal] of the external [effect/Equal], the
    interface of the structural equality of section 3.  [equals] stands for
    [Equal.equals]. *)
Class Equal (A : Type) : Type := equals : A -> A -> bool.

(** ** effect/Option *)

(** Modelled from the spec: the functions of the external [effect/Option]
    that [Result.ts] calls, on [option]: [None] for [Option.none()] and
    [Some a] for [Option.some(a)]. *)
Module Option.
Section Option.
Context {S X A : Type}.

Definition isNone (self : option A) : bool :=
  match self with None => true | Some _ => false end.

Definition isSome (self : option A) : bool :=
  match self with None => false | Some _ => true end.

Definition filter (predicate : A -> bool) (self : option A) : option A :=
  match self with
  | Some a => if predicate a then Some a else None
  | None => None
  end.

(** Modelled from the spec: [Option.getOrElse(self, onNone)], which
    section 4.1 has evaluate [onNone] lazily — on [None] only. *)
Definition getOrElse (self : option A) (onNone : LazyArg S X A) : Eff S X A :=
  match self with
  | Some a => mret a
  | None => onNone tt
  end.

Definition getOrNull `{Null A} (self : option A) : A :=
  match self with
  | Some a => a
  | None => null
  end.

(** Modelled from the spec: [Option.getOrThrowWith(self, onNone)] throws
    what [onNone] builds. *)
Definition getOrThrowWith {Y} (self : option A) (onNone : unit -> Y) : Completion Y A :=
  match self with
  | Some a => Normal a
  | None => Throw (onNone tt)
  end.
End Option.
End Option.

(** ** effect/Cause *)

Module Cause.

(** Modelled from the spec: the cause hierarchy of [effect/Cause], an
    external library.  Section 3 of the specification gives it as a typed
    error, an interruption, a defect, and sequential or parallel
    composites; [Empty] is the library's cause holding nothing. *)
Inductive Cause (E D : Type) : Type :=
| Empty
| Fail (error : E)
| Die (defect : D)
| Interrupt
| Sequential (left right : Cause E D)
| Parallel (left right : Cause E D).
Arguments Empty {E D}.
Arguments Fail {E D} error.
Arguments Die {E D} defect.
Arguments Interrupt {E D}.
Arguments Sequential {E D} left right.
Arguments Parallel {E D} left right.

(** What [Cause.squash] hands to [throw]. *)
Inductive Squashed (E D : Type) : Type :=
| SquashedError (error : E)
| SquashedDefect (defect : D)
| InterruptedException.
Arguments SquashedError {E D} error.
Arguments SquashedDefect {E D} defect.
Arguments InterruptedException {E D}.

(** The exception built by [Result.getOrThrow]. *)
Inductive NoSuchElementException : Type :=
| NoSuchElement (message : string).

Section Cause.
Context {E D : Type}.

(** Modelled from the spec: "extract first ..." — the first sub-cause, in
    left-to-right order, on which [pf] answers. *)
Fixpoint find {Z : Type} (pf : Cause E D -> option Z) (self : Cause E D) : option Z :=
  match pf self with
  | Some z => Some z
  | None =>
      match self with
      | Sequential l r | Parallel l r =>
          match find pf l with
          | Some z => Some z
          | None => find pf r
          end
      | _ => None
      end
  end.

(** Modelled from the spec: "the first typed failure, if any". *)
Definition failureOption (self : Cause E D) : option E :=
  find (fun c => match c with Fail e => Some e | _ => None end) self.

(** Modelled from the spec: "the first defect, if any". *)
Definition dieOption (self : Cause E D) : option D :=
  find (fun c => match c with Die d => Some d | _ => None end) self.

(** Modelled from the spec: "is interruption-only" — no leaf is a typed
    error or a defect. *)
Fixpoint isInterruptedOnly (self : Cause E D) : bool :=
  match self with
  | Empty => true
  | Fail _ => false
  | Die _ => false
  | Interrupt => true
  | Sequential l r => isInterruptedOnly l && isInterruptedOnly r
  | Parallel l r => isInterruptedOnly l && isInterruptedOnly r
  end.

(** Modelled from the spec: [Cause.squash], by which [render] re-raises
    a cause as one throwable value — its first typed error, else its
    first defect, else an interruption exception. *)
Definition squash (self : Cause E D) : Squashed E D :=
  match failureOption self with
  | Some e => SquashedError e
  | None =>
      match dieOption self with
      | Some d => SquashedDefect d
      | None => InterruptedException
      end
  end.

(** The leaves of a cause, left to right. *)
Fixpoint leaves (self : Cause E D) : list (Cause E D) :=
  match self with
  | Sequential l r | Parallel l r => leaves l ++ leaves r
  | _ => [self]
  end.

(** [Cause.fail(error)]. *)
Definition fail (error : E) : Cause E D := Fail error.
End Cause.
End Cause.

(** ** effect/Exit *)

Module Exit.
(** Modelled from the spec: [Exit] of the external [effect/Exit], the raw
  completion signal of the runtime — a value or a cause. *)
Inductive Exit (A E D : Type) : Type :=
| Success (value : A)
| Failure (cause : Cause.Cause E D).
Arguments Success {A E D} value.
Arguments Failure {A E D} cause.
End Exit.

(** ** JavaScript arrays and plain objects *)

Module Js.
(** An array; [None] is a hole. *)
Definition JsArray (V : Type) : Type := list (option V).

(** [array[i] = v]: replaces inside the array, extends it (leaving holes)
    at or past its length. *)
Definition array_set {V} (array : JsArray V) (i : nat) (v : V) : JsArray V :=
  if decide (i < length array)%nat then <[i := Some v]> array
  else array ++ replicate (i - length array) None ++ [Some v].

(** A plain object: its own enumerable string-keyed data properties, in the
    order [Object.entries] lists them. *)
Definition JsObject (V : Type) : Type := list (string * V).

(** Writing an own data property: overwrites it in place, or adds it
    last. *)
Fixpoint own_set {V} (object : JsObject V) (key : string) (v : V) : JsObject V :=
  match object with
  | [] => [(key, v)]
  | (k, w) :: rest =>
      if decide (k = key) then (k, v) :: rest
      else (k, w) :: own_set rest key v
  end.

(** [object[key] = v] on an object made by [{}].  Every key writes an own
    data property, but [__proto__]: that key reaches the setter inherited
    from [Object.prototype], which makes no own property (what it does to
    the prototype is outside the model, which holds own properties
    only). *)
Definition object_set {V} (object : JsObject V) (key : string) (v : V) : JsObject V :=
  if decide (key = "__proto__") then object else own_set object key v.

(** [Array.from(iterable, (x, i) => [i, x])]. *)
Definition entries_of_iterable {V} (items : list V) : list (nat * V) :=
  imap (fun i x => (i, x)) items.

(** [Object.entries(object)]. *)
Definition entries {V} (object : JsObject V) : list (string * V) := object.
End Js.

(** ** effect/Schema *)

Module Schema_.
(** Modelled from the spec: a schema of the external [effect/Schema], of
    type [T] with encoded form [I]; decoding rejects with [None]. *)
Record Schema (T I : Type) : Type := {
  decode : I -> option T;
  encode : T -> option I
}.
Arguments decode {T I} _ _.
Arguments encode {T I} _ _.


(** [Schema.Never]: nothing decodes, nothing encodes. *)
Definition Never {T I} : Schema T I :=
  {| decode := fun _ => None; encode := fun _ => None |}.

(** [Schema.Number]. *)
Definition Number : Schema Z Z :=
  {| decode := fun n => Some n; encode := fun n => Some n |}.

(** [Schema.transform(from, to, {decode, encode})] with a [to] schema that
    accepts every value of [T]. *)
Definition transform {B I T} (from : Schema B I) (decode_ : B -> T) (encode_ : T -> B)
    : Schema T I :=
  {| decode := fun i => decode_ <$> decode from i;
     encode := fun t => encode from (encode_ t) |}.

Section CauseSchema.
Context {E E' D D' : Type}.
Import Cause.

(** Rebuilds a cause leaf by leaf; fails as soon as a leaf does. *)
Fixpoint cause_traverse {E1 D1 E2 D2} (onError : E1 -> option E2)
    (onDefect : D1 -> option D2) (c : Cause E1 D1) : option (Cause E2 D2) :=
  match c with
  | Empty => Some Empty
  | Fail e => Fail <$> onError e
  | Die d => Die <$> onDefect d
  | Interrupt => Some Interrupt
  | Sequential l r =>
      l' ← cause_traverse onError onDefect l;
      r' ← cause_traverse onError onDefect r;
      Some (Sequential l' r')
  | Parallel l r =>
      l' ← cause_traverse onError onDefect l;
      r' ← cause_traverse onError onDefect r;
      Some (Parallel l' r')
  end.

(** Modelled from the spec: [Schema.Cause({error, defect})], the
    "<encoded-cause>" of section 6 — the encoded cause keeps the shape of
    the cause, its typed errors and defects encoded by the two schemas. *)
Definition Cause (error : Schema E E') (defect : Schema D D')
    : Schema (Cause.Cause E D) (Cause.Cause E' D') :=
  {| decode := cause_traverse (decode error) (decode defect);
     encode := cause_traverse (encode error) (encode defect) |}.
End CauseSchema.

(** Modelled from the spec: the defects [Schema.Defect] is read on here — a
    string, a (whole) number, or an [Error] with its name, message and
    stack. *)
Inductive Unknown : Type :=
| UString (s : string)
| UNumber (n : Z)
| UError (name message stack : string).

(** Modelled from the spec: the encoded forms [Schema.Defect] is read on
    here — a string, a number, or a plain object [{name, message}]. *)
Inductive UnknownEncoded : Type :=
| EString (s : string)
| ENumber (n : Z)
| EObject (name message : string).

(** Modelled from the spec: [Schema.Defect] of the library.  Encoding keeps
    the name and message of an [Error] (not its stack) and renders any other
    defect as a string; decoding makes an [Error] with an empty stack of an
    object with a message, and the string [String(i)] of anything else. *)
Definition Defect : Schema Unknown UnknownEncoded :=
  {| decode := fun i =>
       Some (match i with
             | EString s => UString s
             | ENumber n => UString (pretty n)
             | EObject name message => UError name message ""
             end);
     encode := fun defect =>
       Some (match defect with
             | UString s => EString s
             | UNumber n => EString (pretty n)
             | UError name message _ => EObject name message
             end) |}.


End Schema_.

(** ** src/Result.ts *)

Module Result.
Import Cause.

(** [timestamp: number], milliseconds as [Date.now()] counts them. *)
Definition Timestamp : Type := Z.

(** [Result<A, E> = Success<A, E> | Failure<A, E>].  [D] is the type of
    defects ([unknown] in the source). *)
Inductive Result (A E D : Type) : Type :=
| Success (value : A) (timestamp : Timestamp)
| Failure (cause : Cause E D).
Arguments Success {A E D} value timestamp.
Arguments Failure {A E D} cause.

(** The [_tag] field. *)
Inductive Tag : Type := TagSuccess | TagFailure.

Definition Tag_eqb (x y : Tag) : bool :=
  match x, y with
  | TagSuccess, TagSuccess | TagFailure, TagFailure => true
  | _, _ => false
  end.

Section Core.
Context {A E D : Type}.

Definition _tag (self : Result A E D) : Tag :=
  match self with
  | Success _ _ => TagSuccess
  | Failure _ => TagFailure
  end.

(** [ResultProto[Equal.symbol]]: tags first, then the value or the
    cause. *)
Definition Result_equals `{Equal A} `{Equal (Cause E D)}
    (this that : Result A E D) : bool :=
  if negb (Tag_eqb (_tag this) (_tag that)) then false
  else
    match this with
    | Success value _ =>
        match that with
        | Success value' _ => equals value value'
        | Failure _ => false
        end
    | Failure cause =>
        match that with
        | Failure cause' => equals cause cause'
        | Success _ _ => false
        end
    end.

(** [success(value, options)]; [options] is the [timestamp] the optional
    argument carries, if any: [options?.timestamp ?? Date.now()]. *)
Definition success (now : Timestamp) (value : A) (options : option Timestamp)
    : Result A E D :=
  Success value (match options with Some t => t | None => now end).

Definition failure (cause : Cause E D) : Result A E D := Failure cause.

Definition fail (error : E) : Result A E D := failure (Cause.fail error).

Definition fromExit (now : Timestamp) (exit : Exit.Exit A E D) : Result A E D :=
  match exit with
  | Exit.Success value => success now value None
  | Exit.Failure cause => failure cause
  end.

Definition fromExitWithPrevious (now : Timestamp) (exit : Exit.Exit A E D)
    (_previous : option (Result A E D)) : Result A E D :=
  match exit with
  | Exit.Success value => success now value None
  | Exit.Failure cause => failure cause
  end.

Definition isSuccess (result : Result A E D) : bool :=
  Tag_eqb (_tag result) TagSuccess.

Definition isFailure (result : Result A E D) : bool :=
  Tag_eqb (_tag result) TagFailure.

Definition isInterrupted (result : Result A E D) : bool :=
  match result with
  | Failure cause => Cause.isInterruptedOnly cause
  | Success _ _ => false
  end.

Definition touch (now : Timestamp) (result : Result A E D) : Result A E D :=
  match result with
  | Success value _ => success now value None
  | Failure _ => result
  end.

Definition value (self : Result A E D) : option A :=
  match self with
  | Success value _ => Some value
  | Failure _ => None
  end.

Definition cause (self : Result A E D) : option (Cause E D) :=
  match self with
  | Failure cause => Some cause
  | Success _ _ => None
  end.

Definition error (self : Result A E D) : option E :=
  match self with
  | Failure cause => Cause.failureOption cause
  | Success _ _ => None
  end.

Definition getOrThrow (self : Result A E D) : Completion NoSuchElementException A :=
  Option.getOrThrowWith (value self)
    (fun _ => NoSuchElement "Result.getOrThrow: no value found").

Definition toExit (self : Result A E D) : Exit.Exit A E D :=
  match self with
  | Success value _ => Exit.Success value
  | Failure cause => Exit.Failure cause
  end.
End Core.

#[global] Instance Result_Equal {A E D} `{Equal A} `{Equal (Cause E D)}
  : Equal (Result A E D) := Result_equals.

Section Combinators.
Context {S X : Type}.
Context {A E D : Type}.

(** [getOrElse(self, orElse)], data-first form; the union [A | B] of the
    source is one type here. *)
Definition getOrElse (self : Result A E D) (orElse : LazyArg S X A) : Eff S X A :=
  Option.getOrElse (value self) orElse.

(** [map(self, f)], data-first form.  On a [Success] the source passes
    [self] as the options of [success], so its [timestamp] is reused. *)
Definition map {B : Type} (now : Timestamp) (self : Result A E D)
    (f : A -> Eff S X B) : Eff S X (Result B E D) :=
  match self with
  | Failure cause => mret (failure cause)
  | Success value timestamp =>
      b ← f value;
      mret (success now b (Some timestamp))
  end.

(** [match(self, {onFailure, onSuccess})], data-first form. *)
Definition match_ {Y : Type} (self : Result A E D)
    (onFailure : Result A E D -> Eff S X Y)
    (onSuccess : Result A E D -> Eff S X Y) : Eff S X Y :=
  match self with
  | Failure _ => onFailure self
  | Success _ _ => onSuccess self
  end.
End Combinators.

(** *** all *)

(** What [all] finds in a slot of its argument: [isResult] tells a [Result]
    from any other value. *)
Inductive Entry (V E D : Type) : Type :=
| Plain (v : V)
| Res (r : Result V E D).
Arguments Plain {V E D} v.
Arguments Res {V E D} r.

Definition isResult {V E D} (u : Entry V E D) : bool :=
  match u with
  | Res _ => true
  | Plain _ => false
  end.

(** The argument of [all]: an iterable, or a record. *)
Inductive Arg (V E D : Type) : Type :=
| Iterable (items : list (Entry V E D))
| Record_ (props : Js.JsObject (Entry V E D)).
Arguments Iterable {V E D} items.
Arguments Record_ {V E D} props.

(** What [all] builds: an array for an iterable, an object for a record. *)
Inductive Collection (V : Type) : Type :=
| ArrayOf (array : Js.JsArray V)
| ObjectOf (object : Js.JsObject V).
Arguments ArrayOf {V} array.
Arguments ObjectOf {V} object.

Section All.
Context {V E D : Type}.

(** The entry is not a [Failure]. *)
Definition not_failure (u : Entry V E D) : Prop :=
  forall cause, u <> Res (Failure cause).

(** [v] is what the entry contributes: itself for a plain value, its
    [value] for a [Success]. *)
Definition yields (u : Entry V E D) (v : V) : Prop :=
  u = Plain v \/ exists timestamp, u = Res (Success v timestamp).

(** The [for] loop of [all] over [entries], from the current entry on.
    [set] is [successes[key] = ...] and [inj] tells which kind of
    collection [successes] is.  An entry is a pair, never falsy, so the
    [continue] of [if (!entry)] is never taken. *)
Fixpoint all_loop {K C : Type} (now : Timestamp) (inj : C -> Collection V)
    (set : C -> K -> V -> C) (entries : list (K * Entry V E D)) (successes : C)
    : Result (Collection V) E D :=
  match entries with
  | [] => success now (inj successes) None
  | (key, result) :: rest =>
      match result with
      | Plain v => all_loop now inj set rest (set successes key v)
      | Res (Failure cause) => Failure cause
      | Res (Success value _) => all_loop now inj set rest (set successes key value)
      end
  end.

Definition all (now : Timestamp) (results : Arg V E D) : Result (Collection V) E D :=
  match results with
  | Iterable items =>
      all_loop now ArrayOf Js.array_set (Js.entries_of_iterable items) []
  | Record_ props =>
      all_loop now ObjectOf Js.object_set (Js.entries props) []
  end.
End All.

(** *** Builder *)

(** [BuilderImpl]: the bound result and the captured output. *)
Record BuilderImpl (Out A E D : Type) : Type := {
  result : Result A E D;
  output : option Out
}.
Arguments result {Out A E D} _.
Arguments output {Out A E D} _.

(** [hasProperty(e, "_tag")] and, then, [e._tag]. *)
Class Tagged (E : Type) : Type := tagOf : E -> option string.

(** The first argument of [onErrorTag]: one tag, or an array of tags. *)
Inductive TagArg : Type :=
| OneTag (tag : string)
| ManyTags (tags : list string).

Section Builder.
Context {S X : Type}.
Context {Out A E D : Type}.

Definition builder (self : Result A E D) : BuilderImpl Out A E D :=
  {| result := self; output := None |}.

Definition when (refinement : Result A E D -> bool)
    (f : Result A E D -> Eff S X (option Out))
    (this : BuilderImpl Out A E D) : Eff S X (BuilderImpl Out A E D) :=
  if Option.isNone (output this) && refinement (result this) then
    b ← f (result this);
    if Option.isSome b then mret {| result := result this; output := b |}
    else mret this
  else mret this.

(** In the callbacks below the branch of the other variant is never reached:
    [when] calls them behind [isSuccess] or [isFailure]. *)
Definition onSuccess (f : A -> Result A E D -> Eff S X Out) :=
  when isSuccess (fun r =>
    match r with
    | Success value _ => b ← f value r; mret (Some b)
    | Failure _ => mret None
    end).

Definition onFailure (f : Cause E D -> Result A E D -> Eff S X Out) :=
  when isFailure (fun r =>
    match r with
    | Failure cause => b ← f cause r; mret (Some b)
    | Success _ _ => mret None
    end).

Definition onErrorIf (refinement : E -> bool) (f : E -> Result A E D -> Eff S X Out) :=
  when isFailure (fun result =>
    match result with
    | Failure cause =>
        match Option.filter refinement (Cause.failureOption cause) with
        | Some error => b ← f error result; mret (Some b)
        | None => mret None
        end
    | Success _ _ => mret None
    end).

Definition onError (f : E -> Result A E D -> Eff S X Out) :=
  onErrorIf (fun _ => true) f.

Definition onErrorTag `{Tagged E} (tag : TagArg) (f : E -> Result A E D -> Eff S X Out) :=
  onErrorIf (fun e =>
    match tagOf e with
    | Some t =>
        match tag with
        | ManyTags tags => bool_decide (t ∈ tags)
        | OneTag tag => bool_decide (t = tag)
        end
    | None => false
    end) f.

Definition onDefect (f : D -> Result A E D -> Eff S X Out) :=
  when isFailure (fun result =>
    match result with
    | Failure cause =>
        match Cause.dieOption cause with
        | Some defect => b ← f defect result; mret (Some b)
        | None => mret None
        end
    | Success _ _ => mret None
    end).

(** [orElse(orElse)]; the union [Out | B] of the source is one type here. *)
Definition orElse (orElse : LazyArg S X Out) (this : BuilderImpl Out A E D) : Eff S X Out :=
  Option.getOrElse (output this) orElse.

Definition orNull `{Null Out} (this : BuilderImpl Out A E D) : Out :=
  Option.getOrNull (output this).

Definition render `{Null Out} (this : BuilderImpl Out A E D)
    : Completion (Squashed E D) Out :=
  match output this with
  | Some value => Normal value
  | None =>
      match result this with
      | Failure cause => Throw (Cause.squash cause)
      | Success _ _ => Normal null
      end
  end.

(** A clause of a builder chain, as data. *)
Inductive Clause : Type :=
| OnSuccess (f : A -> Result A E D -> Eff S X Out)
| OnFailure (f : Cause E D -> Result A E D -> Eff S X Out)
| OnError (f : E -> Result A E D -> Eff S X Out)
| OnErrorIf (refinement : E -> bool) (f : E -> Result A E D -> Eff S X Out)
| OnErrorTag (tag : TagArg) (f : E -> Result A E D -> Eff S X Out)
| OnDefect (f : D -> Result A E D -> Eff S X Out).

Definition clause `{Tagged E} (c : Clause) : BuilderImpl Out A E D -> Eff S X (BuilderImpl Out A E D) :=
  match c with
  | OnSuccess f => onSuccess f
  | OnFailure f => onFailure f
  | OnError f => onError f
  | OnErrorIf refinement f => onErrorIf refinement f
  | OnErrorTag tag f => onErrorTag tag f
  | OnDefect f => onDefect f
  end.

(** [this.c1(...).c2(...)...]: the clauses in call order. *)
Fixpoint chain `{Tagged E} (cs : list Clause) (this : BuilderImpl Out A E D)
    : Eff S X (BuilderImpl Out A E D) :=
  match cs with
  | [] => mret this
  | c :: rest => this' ← clause c this; chain rest this'
  end.

(** The clauses of section 4.2 of the specification, said apart from [when]:
    the handler call a clause makes on [r] when its condition holds, [None]
    when it does not. *)
Definition fires `{Tagged E} (c : Clause) (r : Result A E D) : option (Eff S X Out) :=
  match c, r with
  | OnSuccess f, Success value _ => Some (f value r)
  | OnFailure f, Failure cause => Some (f cause r)
  | OnError f, Failure cause =>
      match Cause.failureOption cause with
      | Some error => Some (f error r)
      | None => None
      end
  | OnErrorIf refinement f, Failure cause =>
      match Cause.failureOption cause with
      | Some error => if refinement error then Some (f error r) else None
      | None => None
      end
  | OnErrorTag tag f, Failure cause =>
      match Cause.failureOption cause with
      | Some error =>
          match tagOf error, tag with
          | Some t, OneTag tag => if decide (t = tag) then Some (f error r) else None
          | Some t, ManyTags tags => if decide (t ∈ tags) then Some (f error r) else None
          | None, _ => None
          end
      | None => None
      end
  | OnDefect f, Failure cause =>
      match Cause.dieOption cause with
      | Some defect => Some (f defect r)
      | None => None
      end
  | _, _ => None
  end.

(** The builder on [r] whose slot holds [out]. *)
Definition captured (r : Result A E D) (out : Out) : BuilderImpl Out A E D :=
  {| result := r; output := Some out |}.
End Builder.

(** *** Schema *)

(** The two-variant struct of [PartialEncoded] and [Encoded]: the same
    fields, with the value and the cause decoded ([PartialEncoded]) or
    encoded ([Encoded]). *)
Inductive Struct (A C : Type) : Type :=
| StructSuccess (timestamp : Timestamp) (value : A)
| StructFailure (cause : C).
Arguments StructSuccess {A C} timestamp value.
Arguments StructFailure {A C} cause.

Definition PartialEncoded (A E D : Type) : Type := Struct A (Cause E D).
Definition Encoded (A' E' D' : Type) : Type := Struct A' (Cause E' D').

(** The optional schemas [Schema] is called with. *)
Record SchemaOptions (A A' E E' : Type) : Type := {
  options_success : option (Schema_.Schema A A');
  options_error : option (Schema_.Schema E E')
}.
Arguments options_success {A A' E E'} _.
Arguments options_error {A A' E E'} _.

Section Schema.
Context {A A' E E' D D' : Type}.

(** [Schema.Union(Schema.TaggedStruct("Success", {timestamp, value}),
    Schema.TaggedStruct("Failure", {cause}))]: field by field. *)
Definition Union_TaggedStruct (timestamp_ : Schema_.Schema Timestamp Z)
    (value_ : Schema_.Schema A A')
    (cause_ : Schema_.Schema (Cause E D) (Cause E' D'))
    : Schema_.Schema (PartialEncoded A E D) (Encoded A' E' D') :=
  {| Schema_.decode := fun i =>
       match i with
       | StructSuccess t v =>
           t' ← Schema_.decode timestamp_ t;
           v' ← Schema_.decode value_ v;
           Some (StructSuccess t' v')
       | StructFailure c => StructFailure <$> Schema_.decode cause_ c
       end;
     Schema_.encode := fun e =>
       match e with
       | StructSuccess t v =>
           t' ← Schema_.encode timestamp_ t;
           v' ← Schema_.encode value_ v;
           Some (StructSuccess t' v')
       | StructFailure c => StructFailure <$> Schema_.encode cause_ c
       end |}.

(** [decode] of the transformation. *)
Definition Schema_decode (now : Timestamp) (e : PartialEncoded A E D) : Result A E D :=
  match e with
  | StructSuccess timestamp value => success now value (Some timestamp)
  | StructFailure cause => failure cause
  end.

(** [encode: identity]: the [Result] object itself, read by the struct
    schema through its fields [_tag], [timestamp], [value] or [cause]. *)
Definition Schema_encode (r : Result A E D) : PartialEncoded A E D :=
  match r with
  | Success value timestamp => StructSuccess timestamp value
  | Failure cause => StructFailure cause
  end.

(** [Schema(options)]; [Defect] is [Schema.Defect] of the library. *)
Definition Schema (now : Timestamp) (Defect : Schema_.Schema D D')
    (options : SchemaOptions A A' E E')
    : Schema_.Schema (Result A E D) (Encoded A' E' D') :=
  let success_ := default Schema_.Never (options_success options) in
  let error := default Schema_.Never (options_error options) in
  Schema_.transform
    (Union_TaggedStruct Schema_.Number success_ (Schema_.Cause error Defect))
    (Schema_decode now)
    Schema_encode.
End Schema.
End Result.

(** ** src/HttpBridge.ts: the runtime cache of a client *)

Module HttpBridge.

(** A promise of the runtime: pending, or settled once and for all. *)
Inductive PromiseState (R X : Type) : Type :=
| Pending
| Fulfilled (runtime : R)
| Rejected (reason : X).
Arguments Pending {R X}.
Arguments Fulfilled {R X} runtime.
Arguments Rejected {R X} reason.

(** How an initialization ends. *)
Inductive Settlement (R X : Type) : Type :=
| Resolve (runtime : R)
| Reject (reason : X).
Arguments Resolve {R X} runtime.
Arguments Reject {R X} reason.

(** The state a client made by [Tag] closes over.  [promises] holds every
    promise that [Layer.toRuntime(self.layer).pipe(Effect.scoped,
    Effect.runPromise)] has made, in creation order: a promise is named by
    its position.  [awaited] is, per call of [query] or of a [mutation]
    function, the promise its [await getRuntime()] waits on. *)
Record Client (R X : Type) : Type := {
  runtimePromise : option nat;
  promises : list (PromiseState R X);
  awaited : list nat
}.
Arguments runtimePromise {R X} _.
Arguments promises {R X} _.
Arguments awaited {R X} _.

Inductive CallKind : Type := Query | Mutation.

(** What happens to a client: a call starts, or the runtime settles a
    promise. *)
Inductive Event (R X : Type) : Type :=
| Call (kind : CallKind)
| Settle (promise : nat) (settlement : Settlement R X).
Arguments Call {R X} kind.
Arguments Settle {R X} promise settlement.

Section Client.
Context {R X : Type}.

(** A client right after [Tag]: [let runtimePromise] is undefined. *)
Definition Tag : Client R X :=
  {| runtimePromise := None; promises := []; awaited := [] |}.

(** [Layer.toRuntime(self.layer).pipe(Effect.scoped, Effect.runPromise)]:
    starts an initialization and returns its promise. *)
Definition toRuntime (c : Client R X) : nat * Client R X :=
  (length (promises c),
   {| runtimePromise := runtimePromise c;
      promises := promises c ++ [Pending];
      awaited := awaited c |}).

Definition getRuntime (c : Client R X) : nat * Client R X :=
  match runtimePromise c with
  | None =>
      let '(p, c') := toRuntime c in
      (p, {| runtimePromise := Some p; promises := promises c'; awaited := awaited c' |})
  | Some p => (p, c)
  end.

(** [query] and the function returned by [mutation] both start with
    [const runtime = await getRuntime()]. *)
Definition call (kind : CallKind) (c : Client R X) : Client R X :=
  let '(p, c') := getRuntime c in
  {| runtimePromise := runtimePromise c';
     promises := promises c';
     awaited := awaited c' ++ [p] |}.

(** A pending promise takes the settlement; a settled one keeps its
    state. *)
Definition settle (p : nat) (o : Settlement R X) (c : Client R X) : Client R X :=
  match promises c !! p with
  | Some Pending =>
      {| runtimePromise := runtimePromise c;
         promises := <[p := match o with
                            | Resolve runtime => Fulfilled runtime
                            | Reject reason => Rejected reason
                            end]> (promises c);
         awaited := awaited c |}
  | _ => c
  end.

Definition step (c : Client R X) (ev : Event R X) : Client R X :=
  match ev with
  | Call kind => call kind c
  | Settle p o => settle p o c
  end.

Definition run (events : list (Event R X)) (c : Client R X) : Client R X :=
  fold_left step events c.

(** What the caller numbered [caller] gets from its [await]. *)
Definition observed (c : Client R X) (caller : nat) : option (PromiseState R X) :=
  p ← awaited c !! caller; promises c !! p.

(** The cache is either untouched, or holds the one promise ever made, on
    which every call waits. *)
Definition single_flight (c : Client R X) : Prop :=
  match runtimePromise c with
  | None => promises c = [] /\ awaited c = []
  | Some p => p = 0%nat /\ length (promises c) = 1%nat /\ Forall (eq 0%nat) (awaited c)
  end.

Definition settled (st : PromiseState R X) : Prop := st <> Pending.
End Client.
End HttpBridge.

(** ** Sample handlers and schemas *)

Module Samples.
Import Cause Result.

(** A handler that returns its name and appends it to a log of calls. *)
Definition logging {P Q : Type} (name : string) (_ : P) (_ : Q)
    : Eff (list string) unit string :=
  fun log => (Normal name, log ++ [name]).

(** A lazy argument that returns its name and appends it to the log. *)
Definition logging_lazy (name : string) : LazyArg (list string) unit string :=
  fun _ log => (Normal name, log ++ [name]).

#[global] Instance string_Tagged : Tagged string := fun e => Some e.

(** [builder(r).onError(h1).onError(h2).orElse(h3)]. *)
Definition onError_twice_orElse {S X Out A E D : Type}
    (h1 h2 : E -> Result A E D -> Eff S X Out) (h3 : LazyArg S X Out)
    (r : Result A E D) : Eff S X Out :=
  b ← onError h1 (builder r);
  b ← onError h2 b;
  orElse h3 b.

#[global] Instance Z_Equal : Equal Z := Z.eqb.

(** Causes compared leaf by leaf. *)
Fixpoint cause_eqb (c1 c2 : Cause string string) : bool :=
  match c1, c2 with
  | Empty, Empty => true
  | Fail e1, Fail e2 => String.eqb e1 e2
  | Die d1, Die d2 => String.eqb d1 d2
  | Interrupt, Interrupt => true
  | Sequential l1 r1, Sequential l2 r2 => cause_eqb l1 l2 && cause_eqb r1 r2
  | Parallel l1 r1, Parallel l2 r2 => cause_eqb l1 l2 && cause_eqb r1 r2
  | _, _ => false
  end.

#[global] Instance cause_Equal : Equal (Cause string string) := cause_eqb.


(** A schema of strings encoded as themselves. *)
Definition Text : Schema_.Schema string string :=
  {| Schema_.decode := fun t => Some t; Schema_.encode := fun t => Some t |}.
End Samples.

(** ** src/Result.ts: the hash of a result *)

Module ResultHash.
Import Cause Result.

(** Modelled from the spec: [Hash] of the external [effect/Hash]; [hash]
    stands for [Hash.hash]. *)
Class Hash (A : Type) : Type := hash : A -> Z.

(** Modelled from the spec: [Hash.string] and [Hash.combine] of the external
    [effect/Hash], taken as they come. *)
Record HashLib : Type := {
  Hash_string : string -> Z;
  Hash_combine : Z -> Z -> Z
}.

(** The string a [_tag] holds. *)
Definition tag_name (tag : Tag) : string :=
  match tag with
  | TagSuccess => "Success"
  | TagFailure => "Failure"
  end.

(** [ResultProto[Hash.symbol]]; [Hash.cached] only remembers the number. *)
Definition Result_hash {A E D} (lib : HashLib) `{Hash A} `{Hash (Cause E D)}
    (this : Result A E D) : Z :=
  let tagHash := Hash_string lib (tag_name (_tag this)) in
  Hash_combine lib tagHash
    (match this with
     | Success value _ => hash value
     | Failure cause => hash cause
     end).
End ResultHash.

(** ** effect/Schema: schemas that give back what they decoded *)

Module SchemaLaws.
End SchemaLaws.

(** ** src/HttpBridge.ts: query and mutation *)

Module Calls.
Import Cause Result.

(** The double quote of the two error messages. *)
Definition quote : string := String (Ascii.ascii_of_nat 34) EmptyString.

(** [`Group "${group}" not found`]. *)
Definition group_not_found (group : string) : string :=
  "Group " +:+ quote +:+ group +:+ quote +:+ " not found".

(** [`Endpoint "${endpoint}" not found in group "${group}"`]. *)
Definition endpoint_not_found (endpoint group : string) : string :=
  "Endpoint " +:+ quote +:+ endpoint +:+ quote +:+ " not found in group "
    +:+ quote +:+ group +:+ quote.

(** What [await] makes of a promise: nothing yet, its value, or its
    rejection thrown. *)
Definition await {R X} (p : HttpBridge.PromiseState R X) : option (Completion X R) :=
  match p with
  | HttpBridge.Pending => None
  | HttpBridge.Fulfilled runtime => Some (Normal runtime)
  | HttpBridge.Rejected reason => Some (Throw reason)
  end.

Section Calls.
Context {Req A E D X : Type}.

(** An endpoint function of the client: the exit its effect completes
    with. *)
Definition Handler : Type := Req -> Exit.Exit A E D.

(** The service a runtime provides: the own properties of the client, a
    group of endpoint functions each. *)
Definition ApiClient : Type := gmap string (gmap string Handler).

(** What property reads find up the prototype chain, where the object has
    no own property of that name (a falsy find counts as none).
    [inherited_group name] is what [client[name]] finds: the object found,
    given by what a read of each of its properties, called as an endpoint
    function and yielded, comes to.  [inherited_endpoint name] is what
    [groupHandlers[name]] finds on a group of the client. *)
Record Inherited : Type := {
  inherited_group : string -> option (string -> option Handler);
  inherited_endpoint : string -> option Handler
}.

(** [client[group]]: the own property, else the inherited one. *)
Definition get_group (inherited : Inherited) (client : ApiClient) (group : string)
    : option (string -> option Handler) :=
  match client !! group with
  | Some groupHandlers =>
      Some (fun endpoint =>
              match groupHandlers !! endpoint with
              | Some endpointHandler => Some endpointHandler
              | None => inherited_endpoint inherited endpoint
              end)
  | None => inherited_group inherited group
  end.

(** The [Effect.gen] block of [mutation] and of [query], run by
    [Effect.runPromiseExit] on the runtime's client.  [Error] is
    [new Error(message)]; what the generator throws ends the effect with a
    defect. *)
Definition effect (Error : string -> D) (inherited : Inherited) (client : ApiClient)
    (group endpoint : string) (request : Req) : Exit.Exit A E D :=
  match get_group inherited client group with
  | None => Exit.Failure (Die (Error (group_not_found group)))
  | Some groupHandlers =>
      match groupHandlers endpoint with
      | None => Exit.Failure (Die (Error (endpoint_not_found endpoint group)))
      | Some endpointHandler => endpointHandler request
      end
  end.

(** [self.mutation(group, endpoint)(request)], from the promise
    [getRuntime()] returned; [None] while that promise is pending. *)
Definition mutation (Error : string -> D) (inherited : Inherited) (now : Timestamp)
    (runtimePromise : HttpBridge.PromiseState ApiClient X)
    (group endpoint : string) (request : Req)
    : option (Completion X (Result A E D)) :=
  match await runtimePromise with
  | None => None
  | Some (Throw reason) => Some (Throw reason)
  | Some (Normal runtime) =>
      let exit := effect Error inherited runtime group endpoint request in
      Some (Normal (fromExit now exit))
  end.

(** [self.query(group, endpoint, request)], likewise. *)
Definition query (Error : string -> D) (inherited : Inherited) (now : Timestamp)
    (runtimePromise : HttpBridge.PromiseState ApiClient X)
    (group endpoint : string) (request : Req)
    : option (Completion X (Result A E D)) :=
  match await runtimePromise with
  | None => None
  | Some (Throw reason) => Some (Throw reason)
  | Some (Normal runtime) =>
      let exit := effect Error inherited runtime group endpoint request in
      Some (Normal (fromExit now exit))
  end.

(** What the caller numbered [caller] of the client [c] gets from its call
    of [query]. *)
Definition query_of (Error : string -> D) (inherited : Inherited) (now : Timestamp)
    (c : HttpBridge.Client ApiClient X) (caller : nat)
    (group endpoint : string) (request : Req)
    : option (Completion X (Result A E D)) :=
  p ← HttpBridge.observed c caller;
  query Error inherited now p group endpoint request.
End Calls.
End Calls.

(** ** More samples *)

Module MoreSamples.
Import Cause Result ResultHash Calls.

#[global] Instance Z_Hash : Hash Z := fun z => z.

(** A hash of causes that only looks at the shape. *)
Fixpoint cause_shape_hash (c : Cause string string) : Z :=
  match c with
  | Empty => 0
  | Fail _ => 1
  | Die _ => 2
  | Interrupt => 3
  | Sequential l r => 4 + cause_shape_hash l + cause_shape_hash r
  | Parallel l r => 5 + cause_shape_hash l + cause_shape_hash r
  end.

#[global] Instance cause_Hash : Hash (Cause string string) := cause_shape_hash.

Definition sample_HashLib : HashLib :=
  {| Hash_string := fun s => Z.of_nat (String.length s);
     Hash_combine := fun b self => Z.lxor (self * 53) b |}.

(** A client with one group, [counter], of one endpoint, [count]. *)
Definition counter_client : @ApiClient unit Z string string :=
  {[ "counter" := {[ "count" := fun _ => Exit.Success 42 ]} ]}.

(** A prototype chain on which [toString] is found, as a function with no
    property of its own to call: [client.toString] is there,
    [client.toString.count] is not, and [client.counter.toString] is a
    function whose call, yielded, ends in the defect ["not an effect"]. *)
Definition sample_inherited : @Inherited unit Z string string :=
  {| inherited_group := fun name =>
       if decide (name = "toString") then Some (fun _ => None) else None;
     inherited_endpoint := fun name =>
       if decide (name = "toString")
       then Some (fun _ => Exit.Failure (Die "not an effect"))
       else None |}.

(** A value or [null]. *)
#[global] Instance option_Null {A : Type} : Null (option A) := None.


(** [builder(r).onSuccess(f).onError(g).onDefect(d).orElse(h)]. *)
Definition handle_all {S X Out A E D : Type}
    (f : A -> Result A E D -> Eff S X Out)
    (g : E -> Result A E D -> Eff S X Out)
    (d : D -> Result A E D -> Eff S X Out)
    (h : LazyArg S X Out) (r : Result A E D) : Eff S X Out :=
  b ← onSuccess f (builder r);
  b ← onError g b;
  b ← onDefect d b;
  orElse h b.

(** [builder(r).onSuccess(f).onFailure(g)]. *)
Definition handle_both {S X Out A E D : Type}
    (f : A -> Result A E D -> Eff S X Out)
    (g : Cause E D -> Result A E D -> Eff S X Out)
    (r : Result A E D) : Eff S X (BuilderImpl Out A E D) :=
  b ← onSuccess f (builder r);
  onFailure g b.

(** [builder(r).onErrorTag(tag1, h1).onErrorTag(tag2, h2).orElse(h3)]. *)
Definition handle_tags {S X Out A E D : Type} `{Tagged E} (tag1 tag2 : string)
    (h1 h2 : E -> Result A E D -> Eff S X Out) (h3 : LazyArg S X Out)
    (r : Result A E D) : Eff S X Out :=
  b ← onErrorTag (OneTag tag1) h1 (builder r);
  b ← onErrorTag (OneTag tag2) h2 b;
  orElse h3 b.

(** [builder(r).onSuccess((value) => value).orElse(fallback)]. *)
Definition value_orElse {S X A E D : Type} (fallback : LazyArg S X A)
    (r : Result A E D) : Eff S X A :=
  b ← onSuccess (fun value _ => mret value) (builder r);
  orElse fallback b.
End MoreSamples.

(** * Properties *)

Import Cause Result.

(** ** Causes *)

Section CauseFacts.
Context {E D : Type}.
Implicit Types c l r : Cause E D.

(** For a [pf] that answers on leaves only, [find] answers nothing exactly
    when [pf] answers on no leaf. *)
Lemma find_None {Z} (pf : Cause E D -> option Z) c :
  (forall l r, pf (Sequential l r) = None) ->
  (forall l r, pf (Parallel l r) = None) ->
  find pf c = None <-> forall x, x ∈ leaves c -> pf x = None.
Proof.
  intros Hseq Hpar.
  assert (Hnode : forall l r,
    (find pf l = None <-> forall x, x ∈ leaves l -> pf x = None) ->
    (find pf r = None <-> forall x, x ∈ leaves r -> pf x = None) ->
    match find pf l with Some z => Some z | None => find pf r end = None <->
    forall x, x ∈ leaves l ++ leaves r -> pf x = None).
  { intros l r IHl IHr. setoid_rewrite elem_of_app. destruct (find pf l) as [z |].
    - split; [discriminate |]. intros Hall.
      assert (Hl : Some z = None) by (apply IHl; auto). discriminate.
    - rewrite IHr. split.
      + intros Hr x [Hin | Hin]; [now apply IHl | now apply Hr].
      + auto. }
  induction c as [| e | d | | l IHl r IHr | l IHl r IHr].
  1-4: cbn [find leaves];
       (split; [intros Hpf x ->%list_elem_of_singleton; now destruct (pf _)
               | intros Hall; now rewrite (Hall _ (list_elem_of_here _ _))]).
  - cbn [find leaves]. rewrite Hseq. now apply Hnode.
  - cbn [find leaves]. rewrite Hpar. now apply Hnode.
Qed.

(** [failureOption] finds nothing exactly when no leaf is a typed error. *)
Lemma failureOption_None c :
  failureOption c = None <-> forall e, Fail e ∉ leaves c.
Proof.
  unfold failureOption. rewrite find_None by reflexivity. split.
  - intros Hall e Hin. now specialize (Hall _ Hin).
  - intros Hno [| e | d | | l r | l r] Hin; try reflexivity. now destruct (Hno e).
Qed.

(** [dieOption] finds nothing exactly when no leaf is a defect. *)
Lemma dieOption_None c :
  dieOption c = None <-> forall d, Die d ∉ leaves c.
Proof.
  unfold dieOption. rewrite find_None by reflexivity. split.
  - intros Hall d Hin. now specialize (Hall _ Hin).
  - intros Hno [| e | d | | l r | l r] Hin; try reflexivity. now destruct (Hno d).
Qed.

(** [isInterruptedOnly] holds exactly when no leaf is a typed error or a
    defect. *)
Lemma isInterruptedOnly_leaves c :
  isInterruptedOnly c = true <->
  forall x, x ∈ leaves c -> (forall e, x <> Fail e) /\ (forall d, x <> Die d).
Proof.
  induction c as [| e | d | | l IHl r IHr | l IHl r IHr]; simpl.
  - split; [| reflexivity]. intros _ x ->%list_elem_of_singleton. split; discriminate.
  - split; [discriminate |]. intros H.
    destruct (H (Fail e)) as [Hf _]; [apply list_elem_of_singleton; reflexivity |].
    now destruct (Hf e).
  - split; [discriminate |]. intros H.
    destruct (H (Die d)) as [_ Hd]; [apply list_elem_of_singleton; reflexivity |].
    now destruct (Hd d).
  - split; [| reflexivity]. intros _ x ->%list_elem_of_singleton. split; discriminate.
  - rewrite andb_true_iff, IHl, IHr. split.
    + intros [Hl Hr] x [Hin | Hin]%elem_of_app; auto.
    + intros H. split; intros x Hin; apply H, elem_of_app; auto.
  - rewrite andb_true_iff, IHl, IHr. split.
    + intros [Hl Hr] x [Hin | Hin]%elem_of_app; auto.
    + intros H. split; intros x Hin; apply H, elem_of_app; auto.
Qed.

Lemma isInterruptedOnly_options c :
  isInterruptedOnly c = true <-> failureOption c = None /\ dieOption c = None.
Proof.
  rewrite isInterruptedOnly_leaves, failureOption_None, dieOption_None. split.
  - intros H. split; intros y Hin; destruct (H _ Hin) as [Hf Hd]; [now apply (Hf y) | now apply (Hd y)].
  - intros [Hf Hd] x Hin. split; intros y ->; [now apply (Hf y) | now apply (Hd y)].
Qed.
End CauseFacts.

(** ** Result core *)

Section ResultFacts.
Context {A E D : Type}.

(** C5. [isInterrupted(result)] is true exactly when [result] is a [Failure]
    whose cause consists solely of interruption: none of its leaves is a
    typed error or a defect (equivalently, the cause yields no first typed
    error and no first defect).  It is false for every [Success] and for
    every [Failure] whose cause holds a [Fail] or a [Die]. *)
Theorem isInterrupted_iff_interruption_only :
  (forall result : Result A E D,
     isInterrupted result = true <->
     exists cause, result = Failure cause /\
       (forall x, x ∈ leaves cause -> (forall e, x <> Fail e) /\ (forall d, x <> Die d)) /\
       failureOption cause = None /\ dieOption cause = None) /\
  (forall (a : A) timestamp, isInterrupted (Success (E:=E) (D:=D) a timestamp) = false) /\
  (forall (cause : Cause E D) x,
     x ∈ leaves cause -> (exists e, x = Fail e) \/ (exists d, x = Die d) ->
     isInterrupted (Failure (A:=A) cause) = false).
Proof.
  split; [| split].
  - intros [a t | cause]; simpl.
    + split; [discriminate | intros (c & Hc & _); discriminate].
    + split.
      * intros H. exists cause. split; [reflexivity |]. split.
        -- now apply isInterruptedOnly_leaves.
        -- now apply isInterruptedOnly_options.
      * intros (c & [= ->] & H & _). now apply isInterruptedOnly_leaves.
  - reflexivity.
  - intros cause x Hin Hx. simpl.
    destruct (isInterruptedOnly cause) eqn:Hio; [| reflexivity].
    destruct (proj1 (isInterruptedOnly_leaves cause) Hio x Hin) as [Hf Hd].
    destruct Hx as [[e ->] | [d ->]]; [now destruct (Hf e) | now destruct (Hd d)].
Qed.

(** C9. [fromExitWithPrevious(exit, previous)] returns the same [Result] as
    [fromExit(exit)], whatever [previous] is (the clock read at the same
    instant); read at two instants, the two results still have the same
    value and the same cause. *)
Theorem fromExitWithPrevious_eq_fromExit :
  (forall now (exit : Exit.Exit A E D) previous,
     fromExitWithPrevious now exit previous = fromExit now exit) /\
  (forall now now' (exit : Exit.Exit A E D) previous,
     _tag (fromExitWithPrevious now exit previous) = _tag (fromExit now' exit) /\
     value (fromExitWithPrevious now exit previous) = value (fromExit now' exit) /\
     cause (fromExitWithPrevious now exit previous) = cause (fromExit now' exit)).
Proof.
  split.
  - intros now [v | c] previous; reflexivity.
  - intros now now' [v | c] previous; repeat split; reflexivity.
Qed.

(** C10. Structural equality of results disregards the timestamp: it
    compares the tags, then the values of two [Success]es or the causes of
    two [Failure]s.  So [success(a, {timestamp: t1})] equals
    [success(a, {timestamp: t2})] as soon as [a] equals itself. *)
Theorem Result_equals_disregards_timestamp `{Equal A} `{Equal (Cause E D)} :
  (forall (a b : A) t1 t2,
     equals (Success (E:=E) (D:=D) a t1) (Success b t2) = equals a b) /\
  (forall c1 c2 : Cause E D,
     equals (Failure (A:=A) c1) (Failure c2) = equals c1 c2) /\
  (forall (a : A) t (c : Cause E D),
     equals (Success a t) (Failure c) = false /\
     equals (Failure c) (Success a t) = false) /\
  (forall now1 now2 (a : A) t1 t2,
     equals a a = true ->
     equals (success (E:=E) (D:=D) now1 a (Some t1)) (success now2 a (Some t2)) = true).
Proof.
  split; [| split; [| split]].
  - reflexivity.
  - reflexivity.
  - split; reflexivity.
  - intros now1 now2 a t1 t2 Ha. exact Ha.
Qed.

(** C6. [getOrElse(result, fallback)] returns the value of a [Success]
    without evaluating [fallback] (the state is untouched and nothing is
    thrown, whatever [fallback] would do); on a [Failure] it is
    [fallback()]. *)
Theorem getOrElse_lazy {S X : Type} :
  (forall (a : A) timestamp (fallback : LazyArg S X A) (s : S),
     getOrElse (Success (E:=E) (D:=D) a timestamp) fallback s = (Normal a, s)) /\
  (forall (cause : Cause E D) (fallback : LazyArg S X A) (s : S),
     getOrElse (Failure cause) fallback s = fallback tt s).
Proof. split; reflexivity. Qed.
End ResultFacts.

Section MapFacts.
Context {S X : Type}.
Context {A B E D : Type}.

(** C4. [map(success(a), f)] is [success(f(a))] carrying the timestamp of
    the original [Success]; [map(failure(c), f)] is [failure(c)], the cause
    unchanged and [f] not called. *)
Theorem map_success_failure :
  (forall now (a : A) timestamp (f : A -> Eff S X B) (s : S),
     map (E:=E) (D:=D) now (Success a timestamp) f s =
     ((fun b => Success b timestamp) <$> f a) s) /\
  (forall now now0 now' (a : A) options (g : A -> B) (s : S),
     exists timestamp,
       success (E:=E) (D:=D) now0 a options = Success a timestamp /\
       map (S:=S) (X:=X) (E:=E) (D:=D) now (success now0 a options) (fun a => mret (g a)) s =
       (Normal (success now' (g a) (Some timestamp)), s)) /\
  (forall `{Equal B} `{Equal (Cause E D)} now now' (a : A) timestamp (g : A -> B) (s : S),
     equals (g a) (g a) = true ->
     exists r,
       map (S:=S) (X:=X) (E:=E) (D:=D) now (Success a timestamp) (fun a => mret (g a)) s =
       (Normal r, s) /\
       equals r (success now' (g a) None) = true) /\
  (forall now (c : Cause E D) (f : A -> Eff S X B) (s : S),
     map now (failure c) f s = (Normal (failure c), s)).
Proof.
  split; [| split; [| split]].
  - intros now a t f s. unfold map, fmap, Eff_fmap, eff_map, mbind, Eff_bind, mret, Eff_ret.
    unfold eff_bind. destruct (f a s) as [[b | x] s']; reflexivity.
  - intros now now0 now' a options g s.
    exists (match options with Some t => t | None => now0 end). split; reflexivity.
  - intros EqB EqC now now' a t g s Hg.
    exists (Success (g a) t). split; [reflexivity | exact Hg].
  - reflexivity.
Qed.
End MapFacts.

(** ** Builder *)

Section BuilderFacts.
Context {S X : Type}.
Context {Out A E D : Type}.
Context `{Tagged E}.
Implicit Types (r : Result A E D) (s : S).

Lemma when_captured refinement (f : Result A E D -> Eff S X (option Out)) r (out : Out) s :
  when refinement f (captured r out) s = (Normal (captured r out), s).
Proof. reflexivity. Qed.

Lemma clause_captured (c : Clause) r (out : Out) s :
  clause (S:=S) (X:=X) c (captured r out) s = (Normal (captured r out), s).
Proof. destruct c; apply when_captured. Qed.

Lemma chain_captured (cs : list Clause) r (out : Out) s :
  chain (S:=S) (X:=X) cs (captured r out) s = (Normal (captured r out), s).
Proof.
  induction cs as [| c cs IH]; [reflexivity |].
  cbn [chain]. unfold mbind, Eff_bind, eff_bind.
  rewrite clause_captured. apply IH.
Qed.

(** A clause on an empty slot: it captures what its handler returns when it
    fires, and changes nothing when it does not. *)
Lemma clause_builder (c : Clause) r s :
  clause (S:=S) (X:=X) (Out:=Out) c (builder r) s =
  match fires c r with
  | Some handler => (captured r <$> handler) s
  | None => (Normal (builder r), s)
  end.
Proof.
  unfold fmap, Eff_fmap, eff_map, eff_bind, eff_ret.
  destruct c, r as [a t | cause]; cbn; try reflexivity.
  - unfold mbind, Eff_bind, eff_bind. destruct (f a (Success a t) s) as [[b | x] s']; reflexivity.
  - unfold mbind, Eff_bind, eff_bind. destruct (f cause (Failure cause) s) as [[b | x] s']; reflexivity.
  - destruct (failureOption cause) as [e |]; cbn; [| reflexivity].
    unfold mbind, Eff_bind, eff_bind. destruct (f e (Failure cause) s) as [[b | x] s']; reflexivity.
  - destruct (failureOption cause) as [e |]; cbn; [| reflexivity].
    destruct (refinement e); [| reflexivity].
    unfold mbind, Eff_bind, eff_bind. destruct (f e (Failure cause) s) as [[b | x] s']; reflexivity.
  - destruct (failureOption cause) as [e |]; cbn; [| reflexivity].
    destruct (tagOf e) as [t |]; [| reflexivity].
    destruct tag as [tag | tags]; case_bool_decide;
      (rewrite decide_True by assumption) || (rewrite decide_False by assumption);
      try reflexivity;
      unfold mbind, Eff_bind, eff_bind; destruct (f e (Failure cause) s) as [[b | x] s']; reflexivity.
  - destruct (dieOption cause) as [d |]; cbn; [| reflexivity].
    unfold mbind, Eff_bind, eff_bind. destruct (f d (Failure cause) s) as [[b | x] s']; reflexivity.
Qed.

Lemma chain_first_firing (pre post : list Clause) (c : Clause) r handler s :
  Forall (fun c' => fires (S:=S) (X:=X) (Out:=Out) c' r = None) pre ->
  fires c r = Some handler ->
  chain (pre ++ c :: post) (builder r) s = (captured r <$> handler) s.
Proof.
  intros Hpre Hc. induction Hpre as [| c' pre Hc' _ IH]; cbn [app chain].
  - unfold mbind, Eff_bind, eff_bind. rewrite clause_builder, Hc.
    unfold fmap, Eff_fmap, eff_map, eff_bind, eff_ret.
    destruct (handler s) as [[out | x] s']; [apply chain_captured | reflexivity].
  - unfold mbind, Eff_bind, eff_bind at 1. rewrite clause_builder, Hc'. exact IH.
Qed.

(** C2, as amended.  The captured-output slot starts empty and is set at
    most once: in a chain on a fresh builder, the first clause that fires
    captures what its handler returns, and once the slot is set every later
    clause changes nothing and calls no handler, even one that would fire.
    In particular, for every [Failure] whose cause yields a typed error [e],
    [builder(r).onError(h1).onError(h2).orElse(h3)] is the call [h1(e, r)]
    and nothing else: neither [h2] nor [h3] is called. *)
Theorem builder_first_match_wins :
  (forall r, output (builder (Out:=Out) r) = None) /\
  (forall (cs : list Clause) r (out : Out) s,
     chain (S:=S) (X:=X) cs (captured r out) s = (Normal (captured r out), s)) /\
  (forall (pre post : list Clause) (c : Clause) r handler s,
     Forall (fun c' => fires (S:=S) (X:=X) (Out:=Out) c' r = None) pre ->
     fires c r = Some handler ->
     chain (pre ++ c :: post) (builder r) s = (captured r <$> handler) s) /\
  (forall (cause : Cause E D) e (h1 h2 : E -> Result A E D -> Eff S X Out) h3 s,
     failureOption cause = Some e ->
     Samples.onError_twice_orElse h1 h2 h3 (Failure cause) s = h1 e (Failure cause) s).
Proof.
  split; [| split; [| split]].
  - reflexivity.
  - apply chain_captured.
  - apply chain_first_firing.
  - intros cause e h1 h2 h3 s He.
    unfold Samples.onError_twice_orElse, mbind, Eff_bind, eff_bind.
    change (onError h1) with (clause (OnError h1)).
    rewrite clause_builder. cbn [fires]. rewrite He.
    unfold fmap, Eff_fmap, eff_map, eff_bind, eff_ret.
    destruct (h1 e (Failure cause) s) as [[out | x] s']; [| reflexivity].
    change (onError h2) with (clause (OnError h2)). rewrite clause_captured.
    reflexivity.
Qed.

(** C3, as amended.  [render()] returns the captured output when a clause
    has fired.  With an empty slot and a [Failure] it throws instead of
    returning a value: the fault is [Cause.squash] of the result's cause,
    that is the first typed error of the cause as it is, else its first
    defect as it is, else an interruption exception.  With an empty slot and
    a [Success] it returns [null]. *)
Theorem render_output_fault_or_null `{Null Out} :
  (forall r (out : Out), render (captured r out) = Normal out) /\
  (forall cause : Cause E D,
     render (builder (Out:=Out) (A:=A) (Failure cause)) = Throw (squash cause)) /\
  (forall (a : A) timestamp,
     render (builder (Out:=Out) (E:=E) (D:=D) (Success a timestamp)) = Normal null) /\
  (forall (b : BuilderImpl Out A E D) cause,
     output b = None -> result b = Failure cause -> render b = Throw (squash cause)) /\
  (forall (b : BuilderImpl Out A E D) a timestamp,
     output b = None -> result b = Success a timestamp -> render b = Normal null) /\
  (forall (cause : Cause E D) e,
     failureOption cause = Some e -> squash cause = SquashedError e) /\
  (forall (cause : Cause E D) d,
     failureOption cause = None -> dieOption cause = Some d ->
     squash cause = SquashedDefect d) /\
  (forall cause : Cause E D,
     failureOption cause = None -> dieOption cause = None ->
     squash cause = InterruptedException).
Proof.
  split; [| split; [| split; [| split; [| split; [| split; [| split]]]]]];
    try reflexivity.
  - intros [r o] cause. simpl. now intros -> ->.
  - intros [r o] a t. simpl. now intros -> ->.
  - intros cause e He. unfold squash. now rewrite He.
  - intros cause d He Hd. unfold squash. now rewrite He, Hd.
  - intros cause He Hd. unfold squash. now rewrite He, Hd.
Qed.
End BuilderFacts.

(** ** all *)

Section AllFacts.
Context {V E D : Type}.
Implicit Types (items : list (Entry V E D)) (props : Js.JsObject (Entry V E D)).

(** Writing at the length of a dense array appends. *)
Lemma array_set_at_length (vs : list V) (v : V) :
  Js.array_set (Some <$> vs) (length vs) v = Some <$> (vs ++ [v]).
Proof.
  unfold Js.array_set. rewrite length_fmap.
  rewrite decide_False by lia. rewrite Nat.sub_diag, fmap_app. reflexivity.
Qed.

Lemma own_set_fresh (object : Js.JsObject V) key (v : V) :
  key ∉ object.*1 -> Js.own_set object key v = object ++ [(key, v)].
Proof.
  induction object as [| [k w] object IH]; intros Hkey; [reflexivity |].
  cbn in *. apply not_elem_of_cons in Hkey as [Hne Hkey].
  rewrite decide_False by congruence. now rewrite IH.
Qed.

(** Writing a property the object does not have adds it last, unless the
    key is [__proto__]. *)
Lemma object_set_fresh (object : Js.JsObject V) key (v : V) :
  key <> "__proto__" -> key ∉ object.*1 ->
  Js.object_set object key v = object ++ [(key, v)].
Proof.
  intros Hproto Hkey. unfold Js.object_set.
  rewrite decide_False by exact Hproto. now apply own_set_fresh.
Qed.


Lemma entries_of_iterable_from_snd (k : nat) items :
  (imap (fun i x => (k + i, x)%nat) items).*2 = items.
Proof.
  revert k. induction items as [| u items IH]; intros k; [reflexivity |].
  cbn. f_equal. rewrite <- (IH (S k)) at 2. f_equal.
  apply imap_ext. intros i x _. cbn. f_equal. lia.
Qed.

(** Over an iterable without [Failure], the loop appends one value per
    entry. *)
Lemma all_loop_array now items (vs0 : list V) :
  Forall not_failure items ->
  exists vs,
    Forall2 yields items vs /\
    all_loop now ArrayOf Js.array_set
      (imap (fun i x => (length vs0 + i, x)%nat) items) (Some <$> vs0)
    = success now (ArrayOf (Some <$> (vs0 ++ vs))) None.
Proof.
  revert vs0. induction items as [| u items IH]; intros vs0 Hitems.
  - exists []. split; [constructor |]. cbn. now rewrite app_nil_r.
  - apply Forall_cons in Hitems as [Hu Hitems].
    assert (Hstep : forall v, yields u v ->
      exists vs, Forall2 yields (u :: items) vs /\
        all_loop now ArrayOf Js.array_set
          (imap ((fun i x => (length vs0 + i, x)%nat) ∘ S) items)
          (Js.array_set (Some <$> vs0) (length vs0 + 0) v)
        = success now (ArrayOf (Some <$> (vs0 ++ vs))) None).
    { intros v Hv. destruct (IH (vs0 ++ [v]) Hitems) as (vs & Hvs & Hloop).
      exists (v :: vs). split; [now constructor |].
      rewrite Nat.add_0_r, array_set_at_length.
      rewrite <- (assoc_L (++)) in Hloop. cbn [app] in Hloop. rewrite <- Hloop.
      f_equal. apply imap_ext. intros i x _. cbn. rewrite length_app. cbn. f_equal. lia. }
    cbn [imap all_loop]. destruct u as [v | [a t | c]].
    + apply Hstep. now left.
    + apply Hstep. right. now exists t.
    + now destruct (Hu c).
Qed.

End AllFacts.


(** ** Schema *)

Section SchemaFacts.
Context {A A' E E' D D' : Type}.
Import Schema_.



End SchemaFacts.

(** ** The runtime cache *)

Section ClientFacts.
Context {R X : Type}.
Import HttpBridge.
Implicit Types (c : Client R X) (ev : Event R X).

Lemma single_flight_Tag : single_flight (@Tag R X).
Proof. now split. Qed.

Lemma single_flight_step c ev : single_flight c -> single_flight (step c ev).
Proof.
  unfold single_flight. destruct c as [[p |] ps aw], ev as [kind | q o]; cbn.
  - intros (-> & Hlen & Haw). repeat split; [exact Hlen |].
    apply Forall_app. split; [exact Haw | now constructor].
  - intros (-> & Hlen & Haw). unfold settle. cbn.
    destruct (ps !! q) as [[| rt | x] |]; cbn; auto.
    rewrite length_insert. auto.
  - intros [-> ->]. cbn. repeat split. now constructor.
  - intros [-> ->]. unfold settle. cbn. now rewrite lookup_nil.
Qed.

Lemma single_flight_run events c : single_flight c -> single_flight (run events c).
Proof.
  revert c. induction events as [| ev events IH]; intros c Hc; [exact Hc |].
  cbn. apply IH, single_flight_step, Hc.
Qed.

(** Once the promise is settled, no event changes it and no call makes
    another. *)
Lemma settled_step c ev st :
  single_flight c -> settled st -> promises c = [st] -> promises (step c ev) = [st].
Proof.
  unfold single_flight, settled.
  destruct c as [[p |] ps aw], ev as [kind | q o]; cbn; intros Hc Hst ->.
  - reflexivity.
  - unfold settle. cbn. destruct q as [| q]; cbn; [| reflexivity].
    destruct st; [now destruct Hst | reflexivity | reflexivity].
  - destruct Hc as [[=] _].
  - destruct Hc as [[=] _].
Qed.

Lemma settled_run events c st :
  single_flight c -> settled st -> promises c = [st] -> promises (run events c) = [st].
Proof.
  revert c. induction events as [| ev events IH]; intros c Hc Hst Hps; [exact Hps |].
  cbn. apply IH; [now apply single_flight_step | exact Hst | now apply settled_step].
Qed.

Lemma single_flight_promises c :
  single_flight c -> (length (promises c) <= 1)%nat /\ Forall (eq 0%nat) (awaited c).
Proof.
  unfold single_flight. destruct (runtimePromise c).
  - intros (_ & -> & Haw). auto.
  - intros [-> ->]. cbn. split; [lia | constructor].
Qed.

(** C8, as amended.  The runtime of a client is initialized at most once,
    however many calls start before it is ready: every call waits on the one
    cached promise, and after the first call [getRuntime] returns it and
    changes nothing.  Once that promise is settled — fulfilled or rejected —
    it stays as it is: every caller, waiting or later, observes that same
    outcome and no later call starts another initialization. *)
Theorem getRuntime_single_flight (events : list (Event R X)) :
  let c := run events Tag in
  (length (promises c) <= 1)%nat /\
  Forall (eq 0%nat) (awaited c) /\
  (forall kind, let c1 := call kind c in getRuntime c1 = (0%nat, c1)) /\
  (forall st more,
     settled st -> promises c = [st] ->
     let c' := run more c in
     promises c' = [st] /\
     forall caller, (caller < length (awaited c'))%nat -> observed c' caller = Some st).
Proof.
  intros c.
  assert (Hc : single_flight c) by apply single_flight_run, single_flight_Tag.
  destruct (single_flight_promises c Hc) as [Hlen Haw].
  split; [exact Hlen |]. split; [exact Haw |]. split.
  - intros kind c1.
    assert (Hc1 : single_flight c1) by apply (single_flight_step c (Call kind) Hc).
    unfold single_flight in Hc1. unfold getRuntime.
    destruct (runtimePromise c1) as [p |] eqn:Hp.
    + now destruct Hc1 as [-> _].
    + destruct Hc1 as [_ Hnil]. subst c1. unfold call in Hnil.
      destruct (getRuntime c) as [p c0]. cbn in Hnil. now destruct (awaited c0).
  - intros st more Hst Hps c'.
    assert (Hc' : single_flight c') by now apply single_flight_run.
    assert (Hps' : promises c' = [st]) by now apply settled_run.
    split; [exact Hps' |]. intros caller Hcaller.
    destruct (single_flight_promises c' Hc') as [_ Haw'].
    unfold observed. apply lookup_lt_is_Some in Hcaller as [p Hp].
    rewrite Hp. cbn.
    assert (0%nat = p) as <-.
    { rewrite Forall_forall in Haw'. apply Haw'. now apply list_elem_of_lookup_2 in Hp. }
    now rewrite Hps'.
Qed.
End ClientFacts.

(** * Instances and counterexamples *)

Section Instances.
Import HttpBridge Samples.
Open Scope string_scope.



(** C2 as stated fails: on a failure whose cause holds a defect and no typed
    error, [builder(r).onError(h1).onError(h2).orElse(h3)] calls [h3], and
    [h1] is never called. *)
Lemma onError_chain_on_defect_calls_orElse :
  let r : Result Z string string := failure (Die "boom") in
  isFailure r = true /\
  onError_twice_orElse (logging "h1") (logging "h2") (logging_lazy "h3") r []
  = (Normal "h3", ["h3"]) /\
  ~ (forall r : Result Z string string,
       isFailure r = true ->
       snd (onError_twice_orElse (logging "h1") (logging "h2") (logging_lazy "h3") r [])
       = ["h1"]).
Proof.
  split; [reflexivity |]. split; [reflexivity |].
  intros Hall. specialize (Hall (failure (Die "boom")) eq_refl). discriminate.
Defined.

Lemma builder_first_match_wins_witness :
  onError_twice_orElse (logging "h1") (logging "h2") (logging_lazy "h3")
    (Failure (A:=Z) (D:=string) (Sequential (Die "boom") (Fail "NotFound"))) []
  = (Normal "h1", ["h1"]).
Proof.
  apply (proj2 (proj2 (proj2 (builder_first_match_wins (Out:=string) (A:=Z))))
           (Sequential (Die "boom") (Fail "NotFound")) "NotFound"
           (logging "h1") (logging "h2") (logging_lazy "h3") []).
  reflexivity.
Defined.

Lemma render_output_fault_or_null_witness :
  render (Out:=option Z) (A:=Z)
    {| result := Failure (Parallel Interrupt (Fail "NotFound")); output := None |}
  = Throw (squash (D:=string) (Parallel Interrupt (Fail "NotFound"))).
Proof.
  apply (proj1 (proj2 (proj2 (proj2 render_output_fault_or_null)))
           {| result := Failure (Parallel Interrupt (Fail "NotFound")); output := None |}
           (Parallel Interrupt (Fail "NotFound"))); reflexivity.
Defined.

(** C3 as stated fails: the fault [render()] throws does not carry the
    cause.  Two different causes are thrown as the same bare typed error, so
    the cause cannot be read off the fault. *)
Lemma render_fault_does_not_carry_the_cause :
  let c1 : Cause string string := Parallel Interrupt (Fail "NotFound") in
  let c2 : Cause string string := Fail "NotFound" in
  c1 <> c2 /\
  render (Out:=option Z) (A:=Z) (builder (Failure c1)) = Throw (SquashedError "NotFound") /\
  render (Out:=option Z) (A:=Z) (builder (Failure c2)) = Throw (SquashedError "NotFound") /\
  ~ (exists carried : Squashed string string -> Cause string string,
       forall cause fault,
         render (Out:=option Z) (A:=Z) (builder (Failure cause)) = Throw fault ->
         carried fault = cause).
Proof.
  split; [discriminate |]. split; [reflexivity |]. split; [reflexivity |].
  intros (carried & Hcarried).
  pose proof (Hcarried (Parallel Interrupt (Fail "NotFound")) _ eq_refl) as H1.
  pose proof (Hcarried (Fail "NotFound") _ eq_refl) as H2.
  cbn in H1, H2. rewrite H1 in H2. discriminate.
Defined.

Lemma map_success_failure_witness :
  exists r : Result Z string string,
    map (S:=unit) (X:=unit) 9 (Success 20 5) (fun a => mret (a + 1)) tt = (Normal r, tt) /\
    equals r (success 11 21 None) = true.
Proof.
  apply (proj1 (proj2 (proj2 (map_success_failure (S:=unit) (X:=unit))))
           Z_Equal cause_Equal 9 11 20 5 (fun a => a + 1) tt).
  reflexivity.
Defined.

Lemma isInterrupted_iff_interruption_only_witness :
  isInterrupted (A:=Z) (E:=string) (Failure (Sequential Interrupt (Die "boom"))) = false.
Proof.
  apply (proj2 (proj2 isInterrupted_iff_interruption_only)
           (Sequential Interrupt (Die "boom")) (Die "boom")).
  - cbn. apply list_elem_of_further, list_elem_of_here.
  - right. now exists "boom".
Defined.

Lemma Result_equals_disregards_timestamp_witness :
  equals (success (E:=string) (D:=string) 0 42 (Some 1)) (success 0 42 (Some 2)) = true.
Proof.
  apply (proj2 (proj2 (proj2 (Result_equals_disregards_timestamp (A:=Z)))) 0 0 42 1 2).
  reflexivity.
Defined.





(** C8 as stated fails: after a failed initialization a later call starts
    no new one; it waits on the cached promise and observes the same
    rejection. *)
Lemma failed_initialization_stays_cached :
  let c := run [Call Query; Call Mutation; Settle 0 (Reject "layer failed"); Call Query]
             (@Tag string string) in
  promises c = [Rejected "layer failed"] /\
  awaited c = [0; 0; 0]%nat /\
  observed c 2 = Some (Rejected "layer failed") /\
  ~ (exists (before after : list (Event string string)) reason,
       promises (run before Tag) = [Rejected reason] /\
       promises (run after (run before Tag)) <> [Rejected reason]).
Proof.
  split; [reflexivity |]. split; [reflexivity |]. split; [reflexivity |].
  intros (before & after & reason & Hbefore & Hafter). apply Hafter.
  apply settled_run; [apply single_flight_run, single_flight_Tag | discriminate | exact Hbefore].
Defined.

Lemma getRuntime_single_flight_witness :
  promises (run [Call Mutation; Call Query]
              (run [Call Query; Settle 0 (Reject "layer failed")] (@Tag string string)))
  = [Rejected "layer failed"].
Proof.
  apply (proj2 (proj2 (proj2
           (getRuntime_single_flight [Call Query; Settle 0 (Reject "layer failed")])))
           (Rejected "layer failed") [Call Mutation; Call Query]).
  - discriminate.
  - reflexivity.
Defined.
End Instances.

(** * Further properties of the code *)

(** ** Result core: conversions, accessors, [map] *)

Section CoreMore.
Context {S X : Type}.
Context {A E D : Type}.
Implicit Types (r : Result A E D) (s : S).

(** X1. [toExit] undoes [fromExit]; the other way round, [fromExit] of
    [toExit] is [touch]: the same value or cause, the timestamp read
    anew. *)
Theorem toExit_fromExit_round_trip :
  (forall now (exit : Exit.Exit A E D), toExit (fromExit now exit) = exit) /\
  (forall now r, fromExit now (toExit r) = touch now r) /\
  (forall now r, toExit (touch now r) = toExit r).
Proof.
  split; [| split].
  - intros now [v | c]; reflexivity.
  - intros now [a t | c]; reflexivity.
  - intros now [a t | c]; reflexivity.
Qed.

(** X2. [touch] changes the timestamp of a [Success] to the present and
    nothing else: value, cause, typed error and interruption are kept, a
    later [touch] overrides an earlier one, and structural equality cannot
    tell a touched result from the original. *)
Theorem touch_changes_timestamp_only :
  (forall now r,
     value (touch now r) = value r /\ cause (touch now r) = cause r /\
     error (touch now r) = error r /\ isInterrupted (touch now r) = isInterrupted r) /\
  (forall now (a : A) t, touch (E:=E) (D:=D) now (Success a t) = Success a now) /\
  (forall now now' r, touch now (touch now' r) = touch now r) /\
  (forall `{Equal A} `{Equal (Cause E D)} now r r',
     equals (touch now r) r' = equals r r' /\ equals r' (touch now r) = equals r' r).
Proof.
  split; [| split; [| split]].
  - intros now [a t | c]; repeat split; reflexivity.
  - reflexivity.
  - intros now now' [a t | c]; reflexivity.
  - intros EqA EqC now [a t | c] [a' t' | c']; split; reflexivity.
Qed.

(** X3. [map] is a functor on results: mapping the identity returns the
    result as it is (timestamp included), and mapping [f] then [g] is
    mapping their composition — the callbacks run in the same order, once
    each, and not at all on a [Failure]. *)
Theorem map_identity_and_composition {B C : Type} :
  (forall now r s, map (S:=S) (X:=X) now r (fun a => mret a) s = (Normal r, s)) /\
  (forall now now' now'' r (f : A -> Eff S X B) (g : B -> Eff S X C) s,
     (r' ← map now r f; map now' r' g) s =
     map now'' r (fun a => b ← f a; g b) s).
Proof.
  split.
  - intros now [a t | c] s; reflexivity.
  - intros now now' now'' [a t | c] f g s; [| reflexivity].
    unfold map, mbind, Eff_bind, eff_bind, mret, Eff_ret, eff_ret.
    destruct (f a s) as [[b | x] s1]; [| reflexivity].
    cbn. destruct (g b s1) as [[c | x] s2]; reflexivity.
Qed.

(** X4. [getOrThrow] returns exactly the value that [value] finds; on a
    [Failure] it throws the same "no value found" exception whatever the
    cause is, so the cause does not reach the caller.  Where it returns,
    [getOrElse] returns the same value without calling its fallback. *)
Theorem getOrThrow_value_or_no_such_element :
  (forall r (a : A), getOrThrow r = Normal a <-> value r = Some a) /\
  (forall c : Cause E D,
     getOrThrow (A:=A) (Failure c) =
     Throw (NoSuchElement "Result.getOrThrow: no value found")) /\
  (forall r (a : A) (fallback : LazyArg S X A) s,
     getOrThrow r = Normal a -> getOrElse r fallback s = (Normal a, s)).
Proof.
  split; [| split].
  - intros [a' t | c] a; cbn; split; intros [= ->]; reflexivity.
  - reflexivity.
  - intros [a' t | c] a fallback s; cbn; intros [= ->]. reflexivity.
Qed.

(** X5. Exactly one of value and cause is there: a result either is a
    success with a value, no cause, no typed error and no interruption, or
    is a failure with a cause and no value. *)
Theorem value_xor_cause r :
  (isSuccess r = true /\ isFailure r = false /\ (exists a, value r = Some a) /\
   cause r = None /\ error r = None /\ isInterrupted r = false) \/
  (isSuccess r = false /\ isFailure r = true /\ value r = None /\
   (exists c, cause r = Some c)).
Proof.
  destruct r as [a t | c]; [left | right]; cbn; repeat split; eauto.
Qed.
End CoreMore.

(** ** Builder: which clause fires, and the three exits *)

Section BuilderMore.
Context {S X : Type}.
Context {Out A E D : Type}.
Context `{Tagged E}.
Context `{Null Out}.
Implicit Types (r : Result A E D) (s : S) (b : BuilderImpl Out A E D).

Lemma when_keeps_result refinement (f : Result A E D -> Eff S X (option Out)) b s b' s' :
  when refinement f b s = (Normal b', s') ->
  result b' = result b /\ (output b' = None -> output b = None).
Proof.
  unfold when. destruct (Option.isNone (output b) && refinement (result b)) eqn:Hcond.
  - apply andb_true_iff in Hcond as [Hnone _].
    assert (Hout : output b = None) by (destruct (output b); [discriminate | reflexivity]).
    unfold mbind, Eff_bind, eff_bind.
    destruct (f (result b) s) as [[[out |] | x] s1]; cbn; intros [= <- <-]; auto.
  - intros [= <- <-]. auto.
Qed.

Lemma clause_keeps_result (c : Clause) b s b' s' :
  clause (S:=S) (X:=X) c b s = (Normal b', s') ->
  result b' = result b /\ (output b' = None -> output b = None).
Proof. destruct c; apply when_keeps_result. Qed.

(** X6. A chain of clauses never changes the result the builder was made
    for, and never empties the slot: if the slot is empty after the chain,
    it was empty before. *)
Theorem chain_keeps_result (cs : list Clause) b s b' s' :
  chain (S:=S) (X:=X) cs b s = (Normal b', s') ->
  result b' = result b /\ (output b' = None -> output b = None).
Proof.
  revert b s. induction cs as [| c cs IH]; intros b s.
  - intros [= <- <-]. auto.
  - cbn [chain]. unfold mbind, Eff_bind, eff_bind.
    destruct (clause c b s) as [[b1 | x] s1] eqn:Hc; [| discriminate].
    intros Hrest. apply IH in Hrest as [Hres Hout].
    apply clause_keeps_result in Hc as [Hres1 Hout1].
    split; [congruence | auto].
Qed.





(** X10. The three exits agree on a set slot and differ on an empty one:
    whatever [render] returns, [orNull] returns; where [render] throws, the
    slot is empty, the result is a failure whose squashed cause is thrown,
    and [orNull] returns [null]; [orElse] calls its fallback exactly when
    the slot is empty. *)
Theorem exits_agree_when_output_is_set :
  (forall b v, render b = Normal v -> orNull b = v) /\
  (forall b x,
     render b = Throw x ->
     orNull b = null /\ output b = None /\
     exists cause, result b = Failure cause /\ x = squash cause) /\
  (forall b out (h : LazyArg S X Out) s,
     output b = Some out -> orElse h b s = (Normal out, s)) /\
  (forall b (h : LazyArg S X Out) s, output b = None -> orElse h b s = h tt s).
Proof.
  split; [| split; [| split]].
  - intros [r [out |]] v; unfold render, orNull; cbn.
    + now intros [= <-].
    + destruct r; [now intros [= <-] | discriminate].
  - intros [r [out |]] x; unfold render, orNull; cbn; [discriminate |].
    destruct r as [a t | c]; [discriminate |]. intros [= <-]. eauto.
  - intros [r o] out h s; cbn. now intros ->.
  - intros [r o] h s; cbn. now intros ->.
Qed.

(** X11. [onErrorTag] with one tag is [onErrorTag] with the array of that
    one tag, and with an empty array it never fires. *)
Theorem onErrorTag_one_tag_or_array :
  (forall tag f b s,
     onErrorTag (S:=S) (X:=X) (OneTag tag) f b s = onErrorTag (ManyTags [tag]) f b s) /\
  (forall f b s, onErrorTag (S:=S) (X:=X) (ManyTags []) f b s = (Normal b, s)).
Proof.
  split.
  - intros tag f [r o] s. unfold onErrorTag, onErrorIf, when. cbn.
    destruct (Option.isNone o && isFailure r); [| reflexivity].
    destruct r as [a t | c]; [reflexivity |].
    destruct (failureOption c) as [e |]; [| reflexivity]. cbn.
    destruct (tagOf e) as [t |]; [| reflexivity].
    rewrite (bool_decide_ext (t ∈ [tag]) (t = tag)) by apply list_elem_of_singleton.
    reflexivity.
  - intros f [r o] s. unfold onErrorTag, onErrorIf, when. cbn.
    destruct (Option.isNone o && isFailure r); [| reflexivity].
    destruct r as [a t | c]; [reflexivity |].
    destruct (failureOption c) as [e |]; [| reflexivity]. cbn.
    destruct (tagOf e) as [t |]; [| reflexivity].
    rewrite bool_decide_false by apply not_elem_of_nil. reflexivity.
Qed.

(** X12. [builder(r).onSuccess(f).onError(g).onDefect(d).orElse(h)] calls
    exactly one of the four: [f] on a success, [g] on the first typed
    error, else [d] on the first defect, else [h].  So the fallback runs
    exactly on interrupted results. *)
Theorem orElse_after_error_and_defect_is_interruption f g d h r s :
  MoreSamples.handle_all (S:=S) (X:=X) (Out:=Out) f g d h r s =
  match r with
  | Success a _ => f a r s
  | Failure cause =>
      match failureOption cause with
      | Some e => g e r s
      | None =>
          match dieOption cause with
          | Some defect => d defect r s
          | None => h tt s
          end
      end
  end /\
  (isInterrupted r = true ->
   MoreSamples.handle_all (S:=S) (X:=X) (Out:=Out) f g d h r s = h tt s) /\
  (isInterrupted r = false ->
   forall h', MoreSamples.handle_all (S:=S) (X:=X) (Out:=Out) f g d h r s =
              MoreSamples.handle_all f g d h' r s).
Proof.
  assert (Hall : forall h0, MoreSamples.handle_all (S:=S) (X:=X) (Out:=Out) f g d h0 r s =
    match r with
    | Success a _ => f a r s
    | Failure cause =>
        match failureOption cause with
        | Some e => g e r s
        | None =>
            match dieOption cause with
            | Some defect => d defect r s
            | None => h0 tt s
            end
        end
    end).
  { intros h0. unfold MoreSamples.handle_all, mbind, Eff_bind, eff_bind.
    change (onSuccess f) with (clause (OnSuccess f)).
    change (onError g) with (clause (OnError g)).
    change (onDefect d) with (clause (OnDefect d)).
    rewrite clause_builder. destruct r as [a t | c]; cbn [fires].
    - unfold fmap, Eff_fmap, eff_map, eff_bind, eff_ret.
      destruct (f a (Success a t) s) as [[out | x] s1]; [| reflexivity].
      now rewrite !clause_captured.
    - rewrite clause_builder. cbn [fires]. destruct (failureOption c) as [e |].
      + unfold fmap, Eff_fmap, eff_map, eff_bind, eff_ret.
        destruct (g e (Failure c) s) as [[out | x] s1]; [| reflexivity].
        now rewrite clause_captured.
      + rewrite clause_builder. cbn [fires]. destruct (dieOption c) as [defect |].
        * unfold fmap, Eff_fmap, eff_map, eff_bind, eff_ret.
          destruct (d defect (Failure c) s) as [[out | x] s1]; reflexivity.
        * reflexivity. }
  split; [apply Hall |]. split.
  - intros Hio. rewrite Hall. destruct r as [a t | c]; [discriminate |].
    cbn in Hio. apply isInterruptedOnly_options in Hio as [-> ->]. reflexivity.
  - intros Hio h'. rewrite !Hall. destruct r as [a t | c]; [reflexivity |].
    cbn in Hio. destruct (failureOption c) as [e |] eqn:Hf; [reflexivity |].
    destruct (dieOption c) as [defect |] eqn:Hd; [reflexivity |].
    assert (isInterruptedOnly c = true) by now apply isInterruptedOnly_options.
    congruence.
Qed.

(** X21. On a failure whose first typed error carries the tag [t],
    [builder(r).onErrorTag(tag1, h1).onErrorTag(tag2, h2).orElse(h3)] calls
    [h1] when [t] is [tag1], else [h2] when [t] is [tag2], else [h3]; a
    typed error without a [_tag] goes to [h3], and so does a failure
    without typed error. *)
Theorem onErrorTag_dispatches_on_the_first_error (tag1 tag2 : string)
    (h1 h2 : E -> Result A E D -> Eff S X Out) (h3 : LazyArg S X Out) (cause : Cause E D) s :
  (forall e t,
     failureOption cause = Some e -> tagOf e = Some t ->
     MoreSamples.handle_tags tag1 tag2 h1 h2 h3 (Failure (A:=A) cause) s =
     if decide (t = tag1) then h1 e (Failure cause) s
     else if decide (t = tag2) then h2 e (Failure cause) s
     else h3 tt s) /\
  (forall e,
     failureOption cause = Some e -> tagOf e = None ->
     MoreSamples.handle_tags tag1 tag2 h1 h2 h3 (Failure (A:=A) cause) s = h3 tt s) /\
  (failureOption cause = None ->
   MoreSamples.handle_tags tag1 tag2 h1 h2 h3 (Failure (A:=A) cause) s = h3 tt s).
Proof.
  assert (Hunfold : MoreSamples.handle_tags tag1 tag2 h1 h2 h3 (Failure (A:=A) cause) s =
    match fires (OnErrorTag (OneTag tag1) h1) (Failure cause) with
    | Some handler => handler s
    | None =>
        match fires (OnErrorTag (OneTag tag2) h2) (Failure cause) with
        | Some handler => handler s
        | None => h3 tt s
        end
    end).
  { unfold MoreSamples.handle_tags, mbind, Eff_bind, eff_bind.
    change (onErrorTag (OneTag tag1) h1) with (clause (OnErrorTag (OneTag tag1) h1)).
    change (onErrorTag (OneTag tag2) h2) with (clause (OnErrorTag (OneTag tag2) h2)).
    rewrite clause_builder.
    destruct (fires (OnErrorTag (OneTag tag1) h1) (Failure cause)) as [handler |].
    - unfold fmap, Eff_fmap, eff_map, eff_bind, eff_ret.
      destruct (handler s) as [[out | x] s1]; [| reflexivity].
      now rewrite clause_captured.
    - rewrite clause_builder.
      destruct (fires (OnErrorTag (OneTag tag2) h2) (Failure cause)) as [handler |];
        [| reflexivity].
      unfold fmap, Eff_fmap, eff_map, eff_bind, eff_ret.
      destruct (handler s) as [[out | x] s1]; reflexivity. }
  rewrite Hunfold. cbn [fires]. split; [| split].
  - intros e t -> ->. now repeat case_decide.
  - now intros e -> ->.
  - now intros ->.
Qed.

(** X22. The two eager combinators are builder chains:
    [builder(r).onSuccess(f).onFailure(g)] captures what
    [match(r, {onSuccess, onFailure})] returns, and
    [builder(r).onSuccess((value) => value).orElse(fallback)] is
    [getOrElse(r, fallback)]. *)
Theorem match_and_getOrElse_as_builder_chains :
  (forall (onFailure_ onSuccess_ : Result A E D -> Eff S X Out) r s,
     MoreSamples.handle_both (fun _ r' => onSuccess_ r') (fun _ r' => onFailure_ r') r s =
     (captured r <$> match_ r onFailure_ onSuccess_) s) /\
  (forall (fallback : LazyArg S X A) r s,
     MoreSamples.value_orElse fallback r s = getOrElse r fallback s).
Proof.
  split.
  - intros onF onS r s. unfold MoreSamples.handle_both, mbind, Eff_bind, eff_bind.
    change (onSuccess (fun _ r' => onS r')) with (clause (OnSuccess (fun _ r' => onS r'))).
    change (onFailure (fun _ r' => onF r')) with (clause (OnFailure (fun _ r' => onF r'))).
    rewrite clause_builder. destruct r as [a t | c]; cbn [fires match_].
    + unfold fmap, Eff_fmap, eff_map, eff_bind, eff_ret.
      destruct (onS (Success a t) s) as [[out | x] s1]; [| reflexivity].
      now rewrite clause_captured.
    + now rewrite clause_builder.
  - intros fallback [a t | c] s; reflexivity.
Qed.
End BuilderMore.

(** ** all: which inputs fail, and inputs without results *)

Section AllMore.
Context {V E D : Type}.

(** The loop either stops at a first [Failure] entry, or meets none and
    ends in a [Success] stamped [now]. *)
Lemma all_loop_cases {K C : Type} now (inj : C -> Collection V) set
    (entries : list (K * Entry V E D)) successes :
  (exists pre key cause post,
     entries = pre ++ (key, Res (Failure cause)) :: post /\
     Forall not_failure pre.*2 /\
     all_loop now inj set entries successes = Failure cause) \/
  (Forall not_failure entries.*2 /\
   exists coll, all_loop now inj set entries successes = Success coll now).
Proof.
  revert successes. induction entries as [| [k u] entries IH]; intros successes.
  - right. split; [constructor | now eexists].
  - assert (Hstep : forall v, not_failure u ->
      (exists pre key cause post,
         (k, u) :: entries = pre ++ (key, Res (Failure cause)) :: post /\
         Forall not_failure pre.*2 /\
         all_loop now inj set entries (set successes k v) = Failure cause) \/
      (Forall not_failure ((k, u) :: entries).*2 /\
       exists coll, all_loop now inj set entries (set successes k v) = Success coll now)).
    { intros v Hu. destruct (IH (set successes k v))
        as [(pre & key & cause & post & -> & Hpre & Hloop) | [Hall Hloop]].
      - left. exists ((k, u) :: pre), key, cause, post.
        split; [reflexivity |]. split; [now constructor | exact Hloop].
      - right. split; [now constructor | exact Hloop]. }
    cbn [all_loop]. destruct u as [v | [a t | c]].
    + apply Hstep. intros c. discriminate.
    + apply Hstep. intros c. discriminate.
    + left. exists [], k, c, entries. split; [reflexivity |]. split; [constructor | reflexivity].
Qed.

(** X13. [all] returns a [Failure] only if that very failure is an entry of
    its argument, and returns a [Success] exactly when no entry is a
    [Failure]; the [Success] is stamped with the time of the call, not with
    a timestamp of an entry. *)
Theorem all_fails_exactly_on_a_failure_entry :
  (forall now (arg : Arg V E D) cause,
     all now arg = Failure cause ->
     match arg with
     | Iterable items => Res (Failure cause) ∈ items
     | Record_ props => exists key, (key, Res (Failure cause)) ∈ props
     end) /\
  (forall now (arg : Arg V E D),
     (exists coll timestamp, all now arg = Success coll timestamp) <->
     match arg with
     | Iterable items => Forall not_failure items
     | Record_ props => Forall not_failure props.*2
     end) /\
  (forall now (arg : Arg V E D) coll timestamp,
     all now arg = Success coll timestamp -> timestamp = now).
Proof.
  assert (Hcases : forall now (arg : Arg V E D),
    (exists cause, all now arg = Failure cause /\
       ~ match arg with
         | Iterable items => Forall not_failure items
         | Record_ props => Forall not_failure props.*2
         end /\
       match arg with
       | Iterable items => Res (Failure cause) ∈ items
       | Record_ props => exists key, (key, Res (Failure cause)) ∈ props
       end) \/
    (match arg with
     | Iterable items => Forall not_failure items
     | Record_ props => Forall not_failure props.*2
     end /\ exists coll, all now arg = Success coll now)).
  { intros now [items | props]; unfold all.
    - pose proof (entries_of_iterable_from_snd 0 items) as Hsnd. cbn in Hsnd.
      destruct (all_loop_cases now ArrayOf Js.array_set (Js.entries_of_iterable items) [])
        as [(pre & key & cause & post & Hentries & _ & Hloop) | [Hall Hloop]].
      + left. exists cause. split; [exact Hloop |].
        assert (Hin : Res (Failure cause) ∈ items).
        { rewrite <- Hsnd. unfold Js.entries_of_iterable in Hentries. rewrite Hentries.
          rewrite fmap_app. apply elem_of_app. right. left. }
        split; [| exact Hin].
        intros Hno. rewrite Forall_forall in Hno. now apply (Hno _ Hin cause).
      + right. unfold Js.entries_of_iterable in Hall. rewrite Hsnd in Hall. now split.
    - destruct (all_loop_cases now ObjectOf Js.object_set (Js.entries props) [])
        as [(pre & key & cause & post & Hentries & _ & Hloop) | [Hall Hloop]].
      + left. exists cause. split; [exact Hloop |]. unfold Js.entries in Hentries.
        assert (Hin : (key, Res (Failure cause)) ∈ props).
        { rewrite Hentries. apply elem_of_app. right. left. }
        split; [| now exists key].
        intros Hno. rewrite Forall_forall in Hno.
        apply (Hno (Res (Failure cause))) with cause; [| reflexivity].
        apply list_elem_of_fmap. now exists (key, Res (Failure cause)).
      + right. now split. }
  split; [| split].
  - intros now arg cause Hall.
    destruct (Hcases now arg) as [(c & Hc & _ & Hin) | [_ [coll Hs]]]; [| congruence].
    rewrite Hall in Hc. now injection Hc as ->.
  - intros now arg. split.
    + intros (coll & t & Hs).
      destruct (Hcases now arg) as [(c & Hc & _) | [Hno _]]; [congruence | exact Hno].
    + intros Hno. destruct (Hcases now arg) as [(c & _ & Hnot & _) | [_ [coll Hs]]].
      * now destruct Hnot.
      * now exists coll, now.
  - intros now arg coll t Hs.
    destruct (Hcases now arg) as [(c & Hc & _) | [_ [coll' Hs']]]; congruence.
Qed.

Lemma yields_Plain (vs vs' : list V) :
  Forall2 yields (Plain (E:=E) (D:=D) <$> vs) vs' -> vs' = vs.
Proof.
  revert vs'. induction vs as [| v vs IH]; intros vs' Hy; inversion Hy; subst; [reflexivity |].
  f_equal; [| now apply IH].
  match goal with Hv : yields _ _ |- _ => destruct Hv as [[= ->] | [t [=]]] end. reflexivity.
Qed.

Lemma all_loop_plain_object now (props acc : Js.JsObject V) :
  NoDup (acc.*1 ++ props.*1) ->
  "__proto__" ∉ props.*1 ->
  all_loop (E:=E) (D:=D) now ObjectOf Js.object_set
    ((fun p => (p.1, Plain p.2)) <$> props) acc
  = Success (ObjectOf (acc ++ props)) now.
Proof.
  revert acc. induction props as [| [k v] props IH]; intros acc Hnodup Hproto.
  - cbn. now rewrite app_nil_r.
  - cbn in *. apply not_elem_of_cons in Hproto as [Hk Hproto].
    rewrite object_set_fresh.
    + rewrite IH; [now rewrite <- (assoc_L (++)) | | exact Hproto].
      rewrite fmap_app. cbn. now rewrite <- (assoc_L (++)).
    + congruence.
    + apply NoDup_app in Hnodup as (_ & Hdisj & _). intros Hin.
      apply (Hdisj k Hin). left.
Qed.

(** X14. On a collection that holds no result at all, [all] returns a
    [Success] of the same collection: the same values in the same order for
    a sequence, the same keys and values for a record none of whose keys is
    [__proto__] (the empty ones included). *)
Theorem all_of_plain_values_is_the_collection :
  (forall now (vs : list V),
     all (E:=E) (D:=D) now (Iterable (Plain <$> vs)) = Success (ArrayOf (Some <$> vs)) now) /\
  (forall now (props : Js.JsObject V),
     NoDup props.*1 ->
     "__proto__" ∉ props.*1 ->
     all (E:=E) (D:=D) now (Record_ ((fun p => (p.1, Plain p.2)) <$> props))
     = Success (ObjectOf props) now).
Proof.
  split.
  - intros now vs.
    destruct (all_loop_array (E:=E) (D:=D) now (Plain <$> vs) []) as (vs' & Hy & Hloop).
    + apply Forall_fmap, Forall_true. intros v c. discriminate.
    + apply yields_Plain in Hy as ->. exact Hloop.
  - intros now props Hnodup Hproto. unfold all, Js.entries.
    now rewrite all_loop_plain_object.
Qed.
End AllMore.

(** ** Schema: the other round trip, and missing schemas *)

Section SchemaMore.
Context {A A' E E' D D' : Type}.
Import Schema_ SchemaLaws.


(** A traversal whose typed errors all fail succeeds only on a cause
    without typed error. *)
Lemma cause_traverse_no_error {E2 D2 : Type} (g : D -> option D2) (c : Cause.Cause E D) c' :
  cause_traverse (E2:=E2) (fun _ => None) g c = Some c' -> failureOption c = None.
Proof.
  intros Htr. apply failureOption_None. revert c' Htr.
  induction c as [| e | d | | l IHl r IHr | l IHl r IHr]; intros c'; cbn.
  - intros _ e Hin%list_elem_of_singleton. discriminate.
  - discriminate.
  - intros _ e Hin%list_elem_of_singleton. discriminate.
  - intros _ e Hin%list_elem_of_singleton. discriminate.
  - destruct (cause_traverse _ g l) as [l' |] eqn:Hl; [| discriminate].
    destruct (cause_traverse _ g r) as [r' |] eqn:Hr; [| discriminate].
    intros _ e [Hin | Hin]%elem_of_app; [now apply (IHl l' eq_refl e) | now apply (IHr r' eq_refl e)].
  - destruct (cause_traverse _ g l) as [l' |] eqn:Hl; [| discriminate].
    destruct (cause_traverse _ g r) as [r' |] eqn:Hr; [| discriminate].
    intros _ e [Hin | Hin]%elem_of_app; [now apply (IHl l' eq_refl e) | now apply (IHr r' eq_refl e)].
Qed.


(** X16. A schema made without a success schema encodes no [Success] and
    decodes none; made without an error schema, it encodes a [Failure] only
    if its cause holds no typed error. *)
Theorem Schema_without_options_rejects now (Defect : Schema D D')
    (options : SchemaOptions A A' E E') :
  (options_success options = None ->
   (forall a timestamp,
      encode (Result.Schema now Defect options) (Success a timestamp) = None) /\
   (forall v timestamp,
      decode (Result.Schema now Defect options) (StructSuccess timestamp v) = None)) /\
  (options_error options = None ->
   forall cause i,
     encode (Result.Schema now Defect options) (Failure cause) = Some i ->
     failureOption cause = None).
Proof.
  split.
  - intros Hnone. unfold Result.Schema, transform. cbn. rewrite Hnone. split; reflexivity.
  - intros Hnone cause i. unfold Result.Schema, transform. cbn. rewrite Hnone. cbn.
    destruct (cause_traverse _ _ cause) as [c' |] eqn:Htr; [| discriminate].
    intros _. eapply cause_traverse_no_error, Htr.
Qed.
End SchemaMore.

(** ** The hash of a result *)

Section HashMore.
Context {A E D : Type}.
Import ResultHash.

(** X17. The hash of a result is consistent with its structural equality:
    where the hashes of values and of causes respect [equals], equal results
    have equal hashes.  The timestamp plays no part in the hash. *)
Theorem Result_hash_respects_equals (lib : HashLib)
    `{Equal A} `{Hash A} `{Equal (Cause E D)} `{Hash (Cause E D)} :
  (forall a b : A, equals a b = true -> hash a = hash b) ->
  (forall c1 c2 : Cause E D, equals c1 c2 = true -> hash c1 = hash c2) ->
  (forall r1 r2 : Result A E D,
     equals r1 r2 = true -> Result_hash lib r1 = Result_hash lib r2) /\
  (forall (a : A) t1 t2,
     Result_hash (E:=E) (D:=D) lib (Success a t1) = Result_hash lib (Success a t2)).
Proof.
  intros HA HC. split; [| reflexivity].
  intros [a1 t1 | c1] [a2 t2 | c2]; cbn; try discriminate.
  - intros Heq. unfold Result_hash. cbn. now rewrite (HA _ _ Heq).
  - intros Heq. unfold Result_hash. cbn. now rewrite (HC _ _ Heq).
Qed.
End HashMore.

(** ** query and mutation *)

Section CallsMore.
Context {Req A E D X : Type}.
Context `{Tagged E}.
Import HttpBridge Calls.

Lemma observed_settled (c : Client (@ApiClient Req A E D) X) st caller :
  single_flight c -> promises c = [st] -> (caller < length (awaited c))%nat ->
  observed c caller = Some st.
Proof.
  intros Hc Hps Hcaller.
  destruct (single_flight_promises c Hc) as [_ Haw].
  unfold observed. apply lookup_lt_is_Some in Hcaller as [p Hp]. rewrite Hp. cbn.
  assert (0%nat = p) as <-.
  { rewrite Forall_forall in Haw. apply Haw. now apply list_elem_of_lookup_2 in Hp. }
  now rewrite Hps.
Qed.


(** X19. [mutation(group, endpoint)(request)] and
    [query(group, endpoint, request)] do the same; when the endpoint is
    there, the call returns the result of that handler's exit — turned back
    into an exit, it is the handler's own. *)
Theorem mutation_agrees_with_query (Error : string -> D) (inherited : Inherited) now :
  (forall (runtimePromise : PromiseState (@ApiClient Req A E D) X) group endpoint request,
     mutation Error inherited now runtimePromise group endpoint request =
     query Error inherited now runtimePromise group endpoint request) /\
  (forall (client : @ApiClient Req A E D) groupHandlers endpointHandler
          group endpoint request,
     client !! group = Some groupHandlers ->
     groupHandlers !! endpoint = Some endpointHandler ->
     exists r,
       query (X:=X) Error inherited now (Fulfilled client) group endpoint request
       = Some (Normal r) /\
       r = fromExit now (endpointHandler request) /\
       toExit r = endpointHandler request).
Proof.
  split; [reflexivity |].
  intros client gh handler group endpoint request Hg He.
  exists (fromExit now (handler request)).
  unfold query, effect, get_group. cbn [await]. unfold Handler in *.
  rewrite Hg. cbv beta iota. rewrite He. repeat split.
  now destruct (handler request).
Qed.

(** X20. Once the runtime promise of a client is settled, every call, the
    ones that waited and the later ones, ends the same way whatever group
    and endpoint it names: with a fulfilled runtime it returns a result and
    never throws; with a rejected one it throws the reason of the failed
    initialization and returns no result. *)
Theorem calls_follow_the_settled_runtime (Error : string -> D) (inherited : Inherited) now
    (events more : list (Event (@ApiClient Req A E D) X)) st caller
    (group endpoint : string) (request : Req) :
  settled st ->
  promises (run events Tag) = [st] ->
  (caller < length (awaited (run more (run events Tag))))%nat ->
  query_of Error inherited now (run more (run events Tag)) caller group endpoint request =
  match st with
  | Pending => None
  | Fulfilled client =>
      Some (Normal (fromExit now (effect Error inherited client group endpoint request)))
  | Rejected reason => Some (Throw reason)
  end.
Proof.
  intros Hst Hps Hcaller.
  assert (Hc : single_flight (run events (@Tag (@ApiClient Req A E D) X)))
    by apply single_flight_run, single_flight_Tag.
  unfold query_of. rewrite (observed_settled _ st).
  - cbn. unfold query. now destruct st.
  - now apply single_flight_run.
  - now apply settled_run.
  - exact Hcaller.
Qed.
End CallsMore.

(** * Instances of the further properties *)

Section MoreInstances.
Import HttpBridge Samples MoreSamples ResultHash Calls SchemaLaws.
Open Scope string_scope.

Lemma getOrThrow_value_or_no_such_element_witness :
  getOrElse (E:=string) (D:=string) (Success "v" 0) (logging_lazy "fallback") []
  = (Normal "v", []).
Proof.
  apply (proj2 (proj2 (getOrThrow_value_or_no_such_element (E:=string) (D:=string)))
           (Success "v" 0) "v" (logging_lazy "fallback") []).
  reflexivity.
Defined.

Lemma chain_keeps_result_witness :
  result (captured (Failure (A:=Z) (D:=string) (Fail "NotFound")) "second")
  = Failure (Fail "NotFound") /\
  (output (captured (Failure (A:=Z) (D:=string) (Fail "NotFound")) "second") = None ->
   output (builder (Out:=string) (Failure (A:=Z) (D:=string) (Fail "NotFound"))) = None).
Proof.
  apply (chain_keeps_result
           [OnSuccess (logging "first"); OnError (logging "second"); OnFailure (logging "third")]
           (builder (Failure (Fail "NotFound"))) []
           (captured (Failure (Fail "NotFound")) "second") ["second"]).
  reflexivity.
Defined.




Lemma exits_agree_when_output_is_set_witness :
  orNull (captured (Success (E:=string) (D:=string) 1 0) (Some "shown")) = Some "shown".
Proof.
  apply (proj1 (exits_agree_when_output_is_set (S:=unit) (X:=unit))
           (captured (Success 1 0) (Some "shown")) (Some "shown")).
  reflexivity.
Defined.

Lemma orElse_after_error_and_defect_is_interruption_witness :
  handle_all (A:=Z) (E:=string) (D:=string)
    (logging "ok") (logging "error") (logging "defect") (logging_lazy "cancelled")
    (Failure (Sequential Interrupt Empty)) []
  = (Normal "cancelled", ["cancelled"]).
Proof.
  apply (proj1 (proj2 (orElse_after_error_and_defect_is_interruption
           (logging "ok") (logging "error") (logging "defect") (logging_lazy "cancelled")
           (Failure (A:=Z) (E:=string) (D:=string) (Sequential Interrupt Empty)) []))).
  reflexivity.
Defined.

Lemma all_fails_exactly_on_a_failure_entry_witness :
  Res (Failure (Die "boom")) ∈
    [Plain 1; Res (Failure (E:=string) (Die "boom")); Res (Failure (Fail "late"))].
Proof.
  apply (proj1 (all_fails_exactly_on_a_failure_entry (V:=Z)) 3
           (Iterable [Plain 1; Res (Failure (Die "boom")); Res (Failure (Fail "late"))])
           (Die "boom")).
  reflexivity.
Defined.

Lemma all_of_plain_values_is_the_collection_witness :
  all (E:=string) (D:=string) 3 (Record_ [("a", Plain 1); ("b", Plain 2)])
  = Success (ObjectOf [("a", 1); ("b", 2)]) 3.
Proof.
  apply (proj2 (all_of_plain_values_is_the_collection (V:=Z) (E:=string) (D:=string))
           3 [("a", 1); ("b", 2)]).
  - cbn. apply NoDup_cons. split; [| apply NoDup_singleton].
    intros Hin%list_elem_of_singleton. discriminate.
  - cbn. intros Hin. apply elem_of_cons in Hin as [Heq | Hin]; [discriminate |].
    apply list_elem_of_singleton in Hin. discriminate.
Defined.




Lemma Schema_without_options_rejects_witness :
  Schema_.decode
    (Result.Schema (A:=nat) (A':=Z) (E:=string) (E':=string) 9 Text
       {| options_success := None; options_error := Some Text |})
    (StructSuccess 5 3)
  = None.
Proof.
  apply (proj1 (Schema_without_options_rejects (A:=nat) (A':=Z) (E:=string) (E':=string) 9 Text
                  {| options_success := None; options_error := Some Text |})).
  reflexivity.
Defined.

Lemma cause_eqb_shape c1 c2 : cause_eqb c1 c2 = true -> cause_shape_hash c1 = cause_shape_hash c2.
Proof.
  revert c2. induction c1 as [| e | d | | l IHl r IHr | l IHl r IHr];
    intros [| e2 | d2 | | l2 r2 | l2 r2]; cbn; try discriminate; try reflexivity.
  - intros [Hl Hr]%andb_true_iff. now rewrite (IHl _ Hl), (IHr _ Hr).
  - intros [Hl Hr]%andb_true_iff. now rewrite (IHl _ Hl), (IHr _ Hr).
Qed.

Lemma Result_hash_respects_equals_witness :
  Result_hash sample_HashLib (Success (E:=string) (D:=string) 42 1)
  = Result_hash sample_HashLib (Success 42 2).
Proof.
  apply (proj1 (Result_hash_respects_equals (A:=Z) (E:=string) (D:=string) sample_HashLib
                  (fun a b Hab => proj1 (Z.eqb_eq a b) Hab) cause_eqb_shape)
           (Success 42 1) (Success 42 2)).
  reflexivity.
Defined.


Lemma mutation_agrees_with_query_witness :
  exists r : Result Z string string,
    query (X:=string) (fun message => message) sample_inherited 7
      (Fulfilled counter_client) "counter" "count" tt
    = Some (Normal r) /\
    r = fromExit 7 (Exit.Success 42) /\
    toExit r = Exit.Success 42.
Proof.
  apply (proj2 (mutation_agrees_with_query (X:=string) (fun message => message)
                  sample_inherited 7)
           counter_client {[ "count" := fun _ => Exit.Success 42 ]}
           (fun _ => Exit.Success 42) "counter" "count" tt); reflexivity.
Defined.

Lemma onErrorTag_dispatches_on_the_first_error_witness :
  handle_tags (A:=Z) (D:=string) "NotFound" "Unauthorized"
    (logging "h1") (logging "h2") (logging_lazy "h3")
    (Failure (Fail "Unauthorized")) []
  = (Normal "h2", ["h2"]).
Proof.
  apply (proj1 (onErrorTag_dispatches_on_the_first_error (A:=Z) (D:=string)
                  "NotFound" "Unauthorized"
                  (logging "h1") (logging "h2") (logging_lazy "h3")
                  (Fail "Unauthorized") [])
           "Unauthorized" "Unauthorized"); reflexivity.
Defined.

Lemma calls_follow_the_settled_runtime_witness :
  query_of (fun message => message) sample_inherited 7
    (run [Call Mutation] (run [Call Query; Settle 0 (Reject "layer failed")] Tag))
    1 "counter" "count" tt
  = Some (Throw "layer failed").
Proof.
  apply (calls_follow_the_settled_runtime (fun message => message) sample_inherited 7
           [Call Query; Settle 0 (Reject "layer failed")] [Call Mutation]
           (Rejected "layer failed") 1 "counter" "count" tt).
  - discriminate.
  - reflexivity.
  - cbn. lia.
Defined.
End MoreInstances.
